(** * TradeCircle accounts: the [User] / [UserProfile] schema and its manager

    A shallow embedding of [accounts/models.py].  The file is mostly a schema:
    field declarations, two factory methods on [UserManager], two permission
    predicates and two string representations.  The declarations are embedded
    as data (a record per field, holding the options written in the source)
    and the object-relational layer is an interpreter of these declarations
    over an explicit store.  The methods of the source are state-passing
    functions in a small state-and-exception monad. *)

From Stdlib Require Import ZArith NArith Ascii String.
From stdpp Require Import gmap strings list fin_maps.

Local Open Scope string_scope.

(** ** The environment supplied by the framework

    [BaseUserManager.normalize_email] and [AbstractBaseUser.set_password]
    (through the password hasher) are inherited, not defined in the source.
    They are the operations of an interface; the laws a theorem needs from
    them are stated where they are used. *)

Class Framework := {
  (** [normalize_email(email)]; the argument may be [None]. *)
  normalize_email : option string → string;
  (** the hasher behind [set_password(raw_password)]; [None] asks for an
      unusable credential. *)
  make_password : option string → string;
  (** whether a stored credential can ever verify. *)
  is_password_usable : string → bool
}.

(** The normalisation routine maps a missing or empty address to the empty
    string, and never empties an address that is not empty. *)
Definition normalizer_keeps_empty `{Framework} : Prop :=
  normalize_email None = "" ∧ normalize_email (Some "") = "".

Definition normalizer_keeps_nonempty `{Framework} : Prop :=
  ∀ e : string, e ≠ "" → normalize_email (Some e) ≠ "".

(** The credential made for a missing password is not usable. *)
Definition hasher_marks_unusable `{Framework} : Prop :=
  is_password_usable (make_password None) = false.

(** ** Field declarations (the options written in [models.py])

    The module carries the name the source imports them under
    ([from django.db import models]). *)

Module models.

Record CharField := {
  max_length : nat;
  unique : bool;
  blank : bool;
  null : bool
}.

Record DateTimeField := {
  auto_now : bool;
  auto_now_add : bool
}.

Record BooleanField := { default : bool }.

Inductive OnDelete := CASCADE | PROTECT | SET_NULL.

Record OneToOneField := {
  on_delete : OnDelete;
  fk_blank : bool;
  fk_null : bool
}.

End models.

(** ** Python values

    Python truthiness of an optional string: [None] and [""] are falsy. *)
Definition truthy (s : option string) : bool :=
  match s with
  | None => false
  | Some s => negb (String.eqb s "")
  end.

(** The value a falsy-checked string argument carries. *)
Definition str_of (s : option string) : string := default "" s.

(** ** The [User] model (models.py, lines 73-117) *)

Module User.

Definition RESTAURANT : N := 1.
Definition CUSTOMER : N := 2.

Definition ROLE_CHOICE : list (N * string) :=
  [(RESTAURANT, "Restaurant"); (CUSTOMER, "Customer")].

(** The declarations of the class body.  [EmailField] is a [CharField]
    with a validator that [save] does not run. *)
Module Meta.
Definition first_name : models.CharField :=
  {| models.max_length := 50; models.unique := false; models.blank := false; models.null := false |}.
Definition last_name : models.CharField :=
  {| models.max_length := 50; models.unique := false; models.blank := false; models.null := false |}.
Definition username : models.CharField :=
  {| models.max_length := 50; models.unique := true; models.blank := false; models.null := false |}.
Definition email : models.CharField :=
  {| models.max_length := 100; models.unique := true; models.blank := false; models.null := false |}.
Definition phone_number : models.CharField :=
  {| models.max_length := 12; models.unique := false; models.blank := true; models.null := false |}.

Definition date_joined : models.DateTimeField :=
  {| models.auto_now := false; models.auto_now_add := true |}.
Definition last_login : models.DateTimeField :=
  {| models.auto_now := false; models.auto_now_add := true |}.
Definition modified_date : models.DateTimeField :=
  {| models.auto_now := false; models.auto_now_add := true |}.
Definition created_date : models.DateTimeField :=
  {| models.auto_now := true; models.auto_now_add := false |}.

Definition is_admin : models.BooleanField := {| models.default := false |}.
Definition is_active : models.BooleanField := {| models.default := false |}.
Definition is_superadmin : models.BooleanField := {| models.default := false |}.
Definition is_staff : models.BooleanField := {| models.default := false |}.
(** Inherited from [PermissionsMixin]. *)
Definition is_superuser : models.BooleanField := {| models.default := false |}.
End Meta.

(** An instance.  [pk] is [None] until the first save; the four timestamps
    are [None] until the storage layer fills them; [password] is the column
    inherited from [AbstractBaseUser]. *)
Record t := mk {
  pk : option nat;
  password : string;
  is_superuser : bool;
  first_name : string;
  last_name : string;
  username : string;
  email : string;
  phone_number : string;
  role : option N;
  date_joined : option Z;
  last_login : option Z;
  modified_date : option Z;
  created_date : option Z;
  is_admin : bool;
  is_active : bool;
  is_superadmin : bool;
  is_staff : bool
}.

#[global] Instance t_eq_dec : EqDecision t.
Proof. solve_decision. Defined.

(** [self.model(email=..., username=..., first_name=..., last_name=...)]:
    the named columns take the arguments, every other one its default. *)
Definition init (email username first_name last_name : string) : t :=
  {| pk := None;
     password := "";
     is_superuser := models.default Meta.is_superuser;
     first_name := first_name;
     last_name := last_name;
     username := username;
     email := email;
     phone_number := "";
     role := None;
     date_joined := None;
     last_login := None;
     modified_date := None;
     created_date := None;
     is_admin := models.default Meta.is_admin;
     is_active := models.default Meta.is_active;
     is_superadmin := models.default Meta.is_superadmin;
     is_staff := models.default Meta.is_staff |}.

(** Attribute assignments. *)
Definition set_pk (v : option nat) (u : t) : t :=
  mk v (password u) (is_superuser u) (first_name u) (last_name u) (username u)
     (email u) (phone_number u) (role u) (date_joined u) (last_login u)
     (modified_date u) (created_date u) (is_admin u) (is_active u)
     (is_superadmin u) (is_staff u).

Definition set_password_column (v : string) (u : t) : t :=
  mk (pk u) v (is_superuser u) (first_name u) (last_name u) (username u)
     (email u) (phone_number u) (role u) (date_joined u) (last_login u)
     (modified_date u) (created_date u) (is_admin u) (is_active u)
     (is_superadmin u) (is_staff u).

Definition set_is_superuser (v : bool) (u : t) : t :=
  mk (pk u) (password u) v (first_name u) (last_name u) (username u)
     (email u) (phone_number u) (role u) (date_joined u) (last_login u)
     (modified_date u) (created_date u) (is_admin u) (is_active u)
     (is_superadmin u) (is_staff u).

Definition set_is_admin (v : bool) (u : t) : t :=
  mk (pk u) (password u) (is_superuser u) (first_name u) (last_name u) (username u)
     (email u) (phone_number u) (role u) (date_joined u) (last_login u)
     (modified_date u) (created_date u) v (is_active u)
     (is_superadmin u) (is_staff u).

Definition set_is_active (v : bool) (u : t) : t :=
  mk (pk u) (password u) (is_superuser u) (first_name u) (last_name u) (username u)
     (email u) (phone_number u) (role u) (date_joined u) (last_login u)
     (modified_date u) (created_date u) (is_admin u) v
     (is_superadmin u) (is_staff u).

Definition set_is_superadmin (v : bool) (u : t) : t :=
  mk (pk u) (password u) (is_superuser u) (first_name u) (last_name u) (username u)
     (email u) (phone_number u) (role u) (date_joined u) (last_login u)
     (modified_date u) (created_date u) (is_admin u) (is_active u)
     v (is_staff u).

Definition set_is_staff (v : bool) (u : t) : t :=
  mk (pk u) (password u) (is_superuser u) (first_name u) (last_name u) (username u)
     (email u) (phone_number u) (role u) (date_joined u) (last_login u)
     (modified_date u) (created_date u) (is_admin u) (is_active u)
     (is_superadmin u) v.

Definition set_timestamps (dj ll md cd : option Z) (u : t) : t :=
  mk (pk u) (password u) (is_superuser u) (first_name u) (last_name u) (username u)
     (email u) (phone_number u) (role u) dj ll md cd (is_admin u) (is_active u)
     (is_superadmin u) (is_staff u).

(** [user.set_password(raw)]: the column takes the hasher's output. *)
Definition set_password `{Framework} (raw : option string) (u : t) : t :=
  set_password_column (make_password raw) u.

(** [__str__] (line 110). *)
Definition __str__ (self : t) : string := email self.

(** [has_perms] (line 113) and [has_module_perms] (line 116).  Python's
    [or] on booleans is the boolean disjunction, evaluated left to right. *)
Definition has_perms (self : t) (perms : list string) (obj : option nat) : bool :=
  is_admin self || is_superadmin self || is_staff self.

Definition has_module_perms (self : t) (app_label : string) : bool :=
  is_staff self || is_admin self || is_superadmin self.

End User.

(** ** The [UserProfile] model (models.py, lines 121-153) *)

Module UserProfile.

Module Meta.
(** [OneToOneField(settings.AUTH_USER_MODEL, on_delete=models.CASCADE,
    blank=True, null=True)] (line 124). *)
Definition user : models.OneToOneField :=
  {| models.on_delete := models.CASCADE; models.fk_blank := true; models.fk_null := true |}.
Definition created_at : models.DateTimeField :=
  {| models.auto_now := false; models.auto_now_add := true |}.
Definition modified_at : models.DateTimeField :=
  {| models.auto_now := true; models.auto_now_add := false |}.
End Meta.

(** An instance.  [user] holds the key of the owning [User] row, or [None];
    the image fields hold a path, not bytes. *)
Record t := mk {
  pk : option nat;
  user : option nat;
  profile_picture : option string;
  cover_photo : option string;
  address_line1 : option string;
  address_line2 : option string;
  country : option string;
  state : option string;
  city : option string;
  pin_code : option string;
  latitude : option string;
  longitude : option string;
  created_at : option Z;
  modified_at : option Z
}.

#[global] Instance t_eq_dec : EqDecision t.
Proof. solve_decision. Defined.

Definition set_pk (v : option nat) (p : t) : t :=
  mk v (user p) (profile_picture p) (cover_photo p) (address_line1 p)
     (address_line2 p) (country p) (state p) (city p) (pin_code p)
     (latitude p) (longitude p) (created_at p) (modified_at p).

Definition set_user (v : option nat) (p : t) : t :=
  mk (pk p) v (profile_picture p) (cover_photo p) (address_line1 p)
     (address_line2 p) (country p) (state p) (city p) (pin_code p)
     (latitude p) (longitude p) (created_at p) (modified_at p).

Definition set_timestamps (ca ma : option Z) (p : t) : t :=
  mk (pk p) (user p) (profile_picture p) (cover_photo p) (address_line1 p)
     (address_line2 p) (country p) (state p) (city p) (pin_code p)
     (latitude p) (longitude p) ca ma.

(** A profile with every optional column unset. *)
Definition blank (owner : option nat) : t :=
  mk None owner None None None None None None None None None None None None.

End UserProfile.

(** ** The store and the effects of a method

    Two tables keyed by primary key, and the sequence of row writes issued
    so far.  A method is a function from the store to an outcome and the
    store it leaves: an exception does not undo writes already made, since
    the source opens no transaction. *)

Inductive Write :=
| INSERT_user (k : nat)
| UPDATE_user (k : nat)
| DELETE_user (k : nat)
| INSERT_profile (k : nat)
| UPDATE_profile (k : nat)
| DELETE_profile (k : nat).

Record Store := mkStore {
  users : gmap nat User.t;
  profiles : gmap nat UserProfile.t;
  writes : list Write
}.

Definition empty_store : Store := mkStore ∅ ∅ [].

Inductive Exception :=
| ValueError (msg : string)
| IntegrityError
| ProtectedError
| AttributeError
| DoesNotExist.

Definition M (A : Type) : Type := Store → (Exception + A) * Store.

Definition ret {A} (a : A) : M A := λ st, (inr a, st).
Definition raise {A} (e : Exception) : M A := λ st, (inl e, st).
Definition bind {A B} (c : M A) (k : A → M B) : M B :=
  λ st, match c st with
        | (inl e, st') => (inl e, st')
        | (inr a, st') => k a st'
        end.
Definition get : M Store := λ st, (inr st, st).
Definition put (st : Store) : M unit := λ _, (inr tt, st).

Notation "'do' x <- c ; k" := (bind c (λ x, k))
  (at level 10, x name, c at level 100, k at level 200,
   format "'[v' 'do'  x  <-  c ; '/' k ']'").
Notation "'run' c ; k" := (bind c (λ _, k))
  (at level 10, c at level 100, k at level 200,
   format "'[v' 'run'  c ; '/' k ']'").

(** The outcome of a method and whether it is the validation failure. *)
Definition succeeded {A} (r : (Exception + A) * Store) : bool :=
  match r.1 with inr _ => true | inl _ => false end.

Definition is_ValueError {A} (r : (Exception + A) * Store) : bool :=
  match r.1 with inl (ValueError _) => true | _ => false end.

(** ** The storage layer

    Modelled from the spec: the object-relational layer and the database
    ([Model.save], [Model.delete], the constraints a declaration creates) are
    not in the repository.  They are given here as an interpreter of the
    declarations above, following the storage contract of the specification:
    unique-constrained columns, timestamp columns "set on insert" versus
    "set on every write", a one-to-one reference with cascade delete.
    [save] runs no validator, so the declared lengths and choices are carried
    by the declarations and not enforced here. *)

(** Modelled from the spec: a timestamp column is recomputed on every write
    when declared [auto_now], on the inserting write only when declared
    [auto_now_add], and otherwise keeps the value of the instance. *)
Definition pre_save (f : models.DateTimeField) (add : bool) (now : Z)
    (cur : option Z) : option Z :=
  if models.auto_now f || (models.auto_now_add f && add) then Some now else cur.

(** Modelled from the spec: the timestamp columns of a [User] before a
    write, each under its own declaration. *)
Definition User_pre_save (add : bool) (now : Z) (u : User.t) : User.t :=
  User.set_timestamps
    (pre_save User.Meta.date_joined add now (User.date_joined u))
    (pre_save User.Meta.last_login add now (User.last_login u))
    (pre_save User.Meta.modified_date add now (User.modified_date u))
    (pre_save User.Meta.created_date add now (User.created_date u))
    u.

(** Modelled from the spec: the unique constraints.  Row [k] holding [r]
    stands in the way of writing [u] under key [self] when it is another row
    and agrees with [u] on a column declared [unique]. *)
Definition User_conflicts (self : option nat) (u : User.t) (k : nat) (r : User.t) : Prop :=
  Some k ≠ self ∧
  ((models.unique User.Meta.username = true ∧ User.username r = User.username u) ∨
   (models.unique User.Meta.email = true ∧ User.email r = User.email u)).

#[global] Instance User_conflicts_dec self u k r : Decision (User_conflicts self u k r).
Proof. unfold User_conflicts. apply _. Defined.

(** Modelled from the spec: some stored row stands in the way. *)
Definition User_unique_violation (self : option nat) (u : User.t)
    (rows : gmap nat User.t) : Prop :=
  map_Exists (User_conflicts self u) rows.

(** Modelled from the spec: the key of a new row is one not in use. *)
Definition new_key {V} (rows : gmap nat V) : nat := fresh (dom rows).

(** Modelled from the spec: the two row writes.  A write that would break
    a unique constraint raises and leaves the table as it was; an insert
    gives the instance its key. *)
Definition User_insert (k : nat) (u : User.t) : M User.t :=
  do st <- get;
  if decide (User_unique_violation (Some k) u (users st)) then raise IntegrityError
  else
    let u := User.set_pk (Some k) u in
    run put (mkStore (<[k := u]> (users st)) (profiles st) (writes st ++ [INSERT_user k]));
    ret u.

(** Modelled from the spec: see [User_insert]. *)
Definition User_update (k : nat) (u : User.t) : M User.t :=
  do st <- get;
  if decide (User_unique_violation (Some k) u (users st)) then raise IntegrityError
  else
    run put (mkStore (<[k := u]> (users st)) (profiles st) (writes st ++ [UPDATE_user k]));
    ret u.

(** Modelled from the spec: [user.save(using=self._db)] at the instant
    [now].  An instance without a key is inserted under a new one; an
    instance with a key is written over its row, and inserted under that key
    when the row is gone. *)
Definition User_save (now : Z) (u : User.t) : M User.t :=
  do st <- get;
  match User.pk u with
  | None => User_insert (new_key (users st)) (User_pre_save true now u)
  | Some k =>
      let u := User_pre_save false now u in
      match users st !! k with
      | Some _ => User_update k u
      | None => User_insert k (User_pre_save true now u)
      end
  end.

(** *** Profiles and deletion *)

(** Modelled from the spec: a one-to-one reference is a unique column; rows
    without an owner do not stand in each other's way. *)
Definition Profile_conflicts (self : option nat) (p : UserProfile.t)
    (k : nat) (r : UserProfile.t) : Prop :=
  Some k ≠ self ∧ is_Some (UserProfile.user p) ∧
  UserProfile.user r = UserProfile.user p.

#[global] Instance Profile_conflicts_dec self p k r :
  Decision (Profile_conflicts self p k r).
Proof. unfold Profile_conflicts. apply _. Defined.

(** Modelled from the spec: the reference must name a stored [User], and
    may be missing only when the declaration says [null=True]. *)
Definition Profile_reference_ok (p : UserProfile.t) (rows : gmap nat User.t) : Prop :=
  match UserProfile.user p with
  | Some o => is_Some (rows !! o)
  | None => models.fk_null UserProfile.Meta.user = true
  end.

#[global] Instance Profile_reference_ok_dec p rows : Decision (Profile_reference_ok p rows).
Proof. unfold Profile_reference_ok. destruct (UserProfile.user p); apply _. Defined.

(** Modelled from the spec: the timestamp columns of a profile before a
    write. *)
Definition Profile_pre_save (add : bool) (now : Z) (p : UserProfile.t) : UserProfile.t :=
  UserProfile.set_timestamps
    (pre_save UserProfile.Meta.created_at add now (UserProfile.created_at p))
    (pre_save UserProfile.Meta.modified_at add now (UserProfile.modified_at p))
    p.

(** Modelled from the spec: the write of a profile row, refused when the
    reference or the one-to-one constraint is broken. *)
Definition Profile_write (insert : bool) (k : nat) (p : UserProfile.t) : M UserProfile.t :=
  do st <- get;
  if decide (Profile_reference_ok p (users st)) then
    if decide (map_Exists (Profile_conflicts (Some k) p) (profiles st))
    then raise IntegrityError
    else
      let p := UserProfile.set_pk (Some k) p in
      run put (mkStore (users st) (<[k := p]> (profiles st))
                 (writes st ++ [if insert then INSERT_profile k else UPDATE_profile k]));
      ret p
  else raise IntegrityError.

(** Modelled from the spec: [profile.save()] at the instant [now]. *)
Definition UserProfile_save (now : Z) (p : UserProfile.t) : M UserProfile.t :=
  do st <- get;
  match UserProfile.pk p with
  | None => Profile_write true (new_key (profiles st)) (Profile_pre_save true now p)
  | Some k =>
      let p := Profile_pre_save false now p in
      match profiles st !! k with
      | Some _ => Profile_write false k p
      | None => Profile_write true k (Profile_pre_save true now p)
      end
  end.

(** Modelled from the spec: the profiles that reference the [User] row
    [k], the others, and a profile with its reference to [k] cleared. *)
Definition owned_by (k : nat) (rows : gmap nat UserProfile.t) : gmap nat UserProfile.t :=
  filter (λ kp, UserProfile.user kp.2 = Some k) rows.

Definition not_owned_by (k : nat) (rows : gmap nat UserProfile.t) : gmap nat UserProfile.t :=
  filter (λ kp, UserProfile.user kp.2 ≠ Some k) rows.

Definition disown (k : nat) (p : UserProfile.t) : UserProfile.t :=
  if decide (UserProfile.user p = Some k) then UserProfile.set_user None p else p.

(** Modelled from the spec: [user.delete()].  What happens to the profiles
    that reference the row is what the declaration of [UserProfile.user]
    says under [on_delete]. *)
Definition User_delete (u : User.t) : M unit :=
  match User.pk u with
  | None => raise (ValueError "User object can't be deleted because its id attribute is set to None.")
  | Some k =>
      do st <- get;
      match models.on_delete UserProfile.Meta.user with
      | models.CASCADE =>
          put (mkStore (delete k (users st)) (not_owned_by k (profiles st))
                 (writes st ++ (DELETE_profile <$> (map_to_list (owned_by k (profiles st))).*1)
                            ++ [DELETE_user k]))
      | models.PROTECT =>
          if decide (owned_by k (profiles st) = ∅)
          then put (mkStore (delete k (users st)) (profiles st) (writes st ++ [DELETE_user k]))
          else raise ProtectedError
      | models.SET_NULL =>
          put (mkStore (delete k (users st)) (disown k <$> profiles st)
                 (writes st ++ (UPDATE_profile <$> (map_to_list (owned_by k (profiles st))).*1)
                            ++ [DELETE_user k]))
      end
  end.

(** ** [UserManager] (models.py, lines 18-66)

    The instants [now], [now1], [now2] are the clock readings of the saves
    the method performs, in order. *)

Module UserManager.

Definition create_user `{Framework} (first_name last_name : string)
    (username email password : option string) (now : Z) : M User.t :=
  if negb (truthy email) then raise (ValueError "User must have an email address")
  else if negb (truthy username) then raise (ValueError "User must have a username")
  else
    let user :=
      User.init (normalize_email email) (str_of username) first_name last_name in
    let user := User.set_password password user in
    do user <- User_save now user;
    ret user.

Definition create_superuser `{Framework} (first_name last_name : string)
    (username email password : option string) (now1 now2 : Z) : M User.t :=
  do user <- create_user first_name last_name username
               (Some (normalize_email email)) password now1;
  let user := User.set_is_admin true user in
  let user := User.set_is_active true user in
  let user := User.set_is_superadmin true user in
  let user := User.set_is_staff true user in
  let user := User.set_is_superuser true user in
  do user <- User_save now2 user;
  ret user.

End UserManager.

(** ** [UserProfile.__str__]

    [UserProfile.__str__] (line 152): [self.user.email].  The reference is
    followed through the store; on a missing reference [self.user] is [None]
    and the attribute access fails. *)
Definition UserProfile___str__ (self : UserProfile.t) : M string :=
  do st <- get;
  match UserProfile.user self with
  | None => raise AttributeError
  | Some k =>
      match users st !! k with
      | Some u => ret (User.email u)
      | None => raise DoesNotExist
      end
  end.

(** ** The operations of this core and the stores they can produce *)

Inductive Op :=
| Create_user (first_name last_name : string) (username email password : option string) (now : Z)
| Create_superuser (first_name last_name : string) (username email password : option string) (now1 now2 : Z)
| Delete_user (u : User.t)
| Save_profile (p : UserProfile.t) (now : Z).

Definition exec `{Framework} (op : Op) (st : Store) : Store :=
  match op with
  | Create_user fn ln un em pw now => (UserManager.create_user fn ln un em pw now st).2
  | Create_superuser fn ln un em pw now1 now2 =>
      (UserManager.create_superuser fn ln un em pw now1 now2 st).2
  | Delete_user u => (User_delete u st).2
  | Save_profile p now => (UserProfile_save now p st).2
  end.

Inductive reachable `{Framework} : Store → Prop :=
| reachable_empty : reachable empty_store
| reachable_exec op st : reachable st → reachable (exec op st).

(** ** A concrete environment

    An ASCII rendering of the framework's routines, used to run the model on
    concrete inputs.  [normalize_email] strips the address, splits it at its
    last [@] and lower-cases the domain part; an address without [@] is
    returned as it came.  The hasher is a stand-in: it marks the credential
    made for a missing password with the prefix [!]. *)

Module Ascii_env.

Definition is_space (c : ascii) : bool :=
  let n := nat_of_ascii c in
  (n =? 32)%nat || ((9 <=? n)%nat && (n <=? 13)%nat).

Definition lower_char (c : ascii) : ascii :=
  let n := nat_of_ascii c in
  if ((65 <=? n)%nat && (n <=? 90)%nat)%bool then ascii_of_nat (n + 32) else c.

Fixpoint lower (s : string) : string :=
  match s with
  | EmptyString => EmptyString
  | String c s => String (lower_char c) (lower s)
  end.

Fixpoint lstrip (s : string) : string :=
  match s with
  | String c s' => if is_space c then lstrip s' else s
  | EmptyString => EmptyString
  end.

Definition strip (s : string) : string :=
  String.rev (lstrip (String.rev (lstrip s))).

(** [s.rsplit("@", 1)] when it yields two parts: the text before the last
    [@] and the text after it. *)
Fixpoint rsplit_at (s : string) : option (string * string) :=
  match s with
  | EmptyString => None
  | String c s' =>
      match rsplit_at s' with
      | Some (name, domain) => Some (String c name, domain)
      | None => if Ascii.eqb c "@" then Some (EmptyString, s') else None
      end
  end.

Definition normalize (email : option string) : string :=
  let email := default "" email in
  match rsplit_at (strip email) with
  | Some (email_name, domain_part) => email_name ++ "@" ++ lower domain_part
  | None => email
  end.

Definition hash (raw : option string) : string :=
  match raw with
  | None => "!"
  | Some p => "stub$" ++ String.rev p
  end.

Definition usable (encoded : string) : bool :=
  negb (String.prefix "!" encoded).

#[global] Instance framework : Framework :=
  {| normalize_email := normalize;
     make_password := hash;
     is_password_usable := usable |}.

End Ascii_env.

(** ** Vocabulary of the statements *)

(** The instance [create_user] hands to [save]. *)
Definition fresh_user `{Framework} (first_name last_name username email : string)
    (password : option string) : User.t :=
  User.set_password password (User.init email username first_name last_name).

(** The five assignments of lines 58-62. *)
Definition elevate (user : User.t) : User.t :=
  User.set_is_superuser true
    (User.set_is_staff true
       (User.set_is_superadmin true
          (User.set_is_active true
             (User.set_is_admin true user)))).

(** No stored row holds the username [un] or the address [em]. *)
Definition available (un em : string) (rows : gmap nat User.t) : Prop :=
  map_Forall (λ _ r, User.username r ≠ un ∧ User.email r ≠ em) rows.

#[global] Instance available_dec un em rows : Decision (available un em rows).
Proof. unfold available. apply _. Defined.

(** No two stored Users share an email or a username. *)
Definition users_unique (st : Store) : Prop :=
  ∀ k1 k2 u1 u2,
    users st !! k1 = Some u1 → users st !! k2 = Some u2 →
    User.email u1 = User.email u2 ∨ User.username u1 = User.username u2 →
    k1 = k2.

(** Every stored User has an email and a username. *)
Definition users_named (st : Store) : Prop :=
  ∀ k u, users st !! k = Some u → User.email u ≠ "" ∧ User.username u ≠ "".

(** No two stored profiles have the same owner. *)
Definition profiles_one_to_one (st : Store) : Prop :=
  ∀ k1 k2 p1 p2 o,
    profiles st !! k1 = Some p1 → profiles st !! k2 = Some p2 →
    UserProfile.user p1 = Some o → UserProfile.user p2 = Some o →
    k1 = k2.

(** The owner a stored profile names is a stored User. *)
Definition profiles_owned (st : Store) : Prop :=
  ∀ k p o,
    profiles st !! k = Some p → UserProfile.user p = Some o →
    is_Some (users st !! o).

Definition consistent (st : Store) : Prop :=
  users_unique st ∧ profiles_one_to_one st ∧ profiles_owned st.

(** The normalisation routine does nothing to an address it has already
    normalised. *)
Definition normalizer_idempotent `{Framework} : Prop :=
  ∀ e : option string,
    normalize_email (Some (normalize_email e)) = normalize_email e.

(** The five flags of a User are all false or all true. *)
Definition flags_uniform (r : User.t) : Prop :=
  User.is_admin r = User.is_superuser r ∧ User.is_active r = User.is_superuser r ∧
  User.is_superadmin r = User.is_superuser r ∧ User.is_staff r = User.is_superuser r.

(** The rows the manager writes: the User [create_user] inserts, and that
    User after the elevation and re-save of [create_superuser]. *)
Definition made_by_create_user `{Framework} (r : User.t) : Prop :=
  ∃ fn ln un em pw k now,
    r = User.set_pk (Some k)
          (User_pre_save true now (fresh_user fn ln un (normalize_email em) pw)).

Definition made_by_manager `{Framework} (r : User.t) : Prop :=
  made_by_create_user r ∨
  ∃ base now2, made_by_create_user base ∧ r = User_pre_save false now2 (elevate base).

(** ** Sample data *)

Definition alice : User.t :=
  {| User.pk := Some 0;
     User.password := "stub$terces";
     User.is_superuser := false;
     User.first_name := "Alice";
     User.last_name := "Liddell";
     User.username := "alice";
     User.email := "alice@example.com";
     User.phone_number := "";
     User.role := None;
     User.date_joined := Some 5%Z;
     User.last_login := Some 5%Z;
     User.modified_date := Some 5%Z;
     User.created_date := Some 5%Z;
     User.is_admin := false;
     User.is_active := false;
     User.is_superadmin := false;
     User.is_staff := false |}.

(** A store holding [alice] alone. *)
Definition sample_store : Store :=
  mkStore {[0 := alice]} ∅ [INSERT_user 0].

(** The base User of that run, as [create_user] returns it at instant 10. *)
Definition root_base : User.t :=
  {| User.pk := Some 1;
     User.password := "stub$wp";
     User.is_superuser := false;
     User.first_name := "Root";
     User.last_name := "Admin";
     User.username := "root";
     User.email := "Root@example.com";
     User.phone_number := "";
     User.role := None;
     User.date_joined := Some 10%Z;
     User.last_login := Some 10%Z;
     User.modified_date := Some 10%Z;
     User.created_date := Some 10%Z;
     User.is_admin := false;
     User.is_active := false;
     User.is_superadmin := false;
     User.is_staff := false |}.

Definition store_with_root_base : Store :=
  mkStore (<[1 := root_base]> {[0 := alice]}) ∅ [INSERT_user 0; INSERT_user 1].

(** The superuser the sample runs create next to [alice]. *)
Definition root : User.t :=
  {| User.pk := Some 1;
     User.password := "stub$wp";
     User.is_superuser := true;
     User.first_name := "Root";
     User.last_name := "Admin";
     User.username := "root";
     User.email := "Root@example.com";
     User.phone_number := "";
     User.role := None;
     User.date_joined := Some 10%Z;
     User.last_login := Some 10%Z;
     User.modified_date := Some 10%Z;
     User.created_date := Some 20%Z;
     User.is_admin := true;
     User.is_active := true;
     User.is_superadmin := true;
     User.is_staff := true |}.

Definition store_with_root : Store :=
  mkStore (<[1 := root]> {[0 := alice]}) ∅
    [INSERT_user 0; INSERT_user 1; UPDATE_user 1].

(** A profile owned by [alice], a profile without an owner, and the store
    holding both. *)
Definition alice_profile : UserProfile.t :=
  UserProfile.set_timestamps (Some 6%Z) (Some 6%Z)
    (UserProfile.set_pk (Some 0) (UserProfile.blank (Some 0))).

Definition stray_profile : UserProfile.t :=
  UserProfile.set_timestamps (Some 7%Z) (Some 7%Z)
    (UserProfile.set_pk (Some 1) (UserProfile.blank None)).

Definition store_with_profiles : Store :=
  mkStore {[0 := alice]} (<[1 := stray_profile]> {[0 := alice_profile]})
    [INSERT_user 0; INSERT_profile 0; INSERT_profile 1].

(** * Lemmas *)

(** ** The monad *)

Lemma bind_ret_r {A} (c : M A) st : bind c ret st = c st.
Proof. unfold bind, ret. destruct (c st) as [[e|a] st']; reflexivity. Qed.

Lemma bind_get {A} (k : Store → M A) st : bind get k st = k st st.
Proof. reflexivity. Qed.

Lemma bind_inr {A B} (c : M A) (k : A → M B) st a st' :
  c st = (inr a, st') → bind c k st = k a st'.
Proof. intros Hc. unfold bind. rewrite Hc. reflexivity. Qed.

Lemma bind_inl {A B} (c : M A) (k : A → M B) st e st' :
  c st = (inl e, st') → bind c k st = (inl e, st').
Proof. intros Hc. unfold bind. rewrite Hc. reflexivity. Qed.

Lemma bind_snd {A B} (c : M A) (k : A → M B) st :
  (bind c k st).2 =
  match c st with
  | (inl _, st') => st'
  | (inr a, st') => (k a st').2
  end.
Proof. unfold bind. destruct (c st) as [[e|a] st']; reflexivity. Qed.

(** ** Truthiness and keys *)

Lemma truthy_Some (s : string) : truthy (Some s) = true ↔ s ≠ "".
Proof.
  unfold truthy. rewrite negb_true_iff. apply String.eqb_neq.
Qed.

Lemma truthy_false (s : option string) :
  truthy s = false ↔ s = None ∨ s = Some "".
Proof.
  destruct s as [s|]; simpl.
  - rewrite negb_false_iff, String.eqb_eq. split.
    + intros ->. right. reflexivity.
    + intros [?|[= ->]]; [discriminate|reflexivity].
  - split; [left; reflexivity|reflexivity].
Qed.

Lemma truthy_str_of un : truthy un = true → str_of un ≠ "".
Proof.
  destruct un as [s|]; [|discriminate]. intros Hs. apply truthy_Some. exact Hs.
Qed.

Lemma truthy_normalized `{Framework} em :
  normalizer_keeps_nonempty → truthy em = true → normalize_email em ≠ "".
Proof.
  intros Hnz Hem. destruct em as [e|]; [|discriminate Hem].
  apply Hnz. apply truthy_Some. exact Hem.
Qed.

Lemma new_key_unused {V} (rows : gmap nat V) : rows !! new_key rows = None.
Proof.
  unfold new_key. apply not_elem_of_dom. apply is_fresh.
Qed.

(** ** Writes of a [User] row *)

Lemma available_no_violation self u rows :
  available (User.username u) (User.email u) rows →
  ¬ User_unique_violation self u rows.
Proof.
  intros Hav (k & r & Hk & _ & Hc).
  destruct (Hav k r Hk) as [Hu He].
  destruct Hc as [[_ ?]|[_ ?]]; contradiction.
Qed.

Lemma User_insert_ok k u st :
  ¬ User_unique_violation (Some k) u (users st) →
  User_insert k u st =
    (inr (User.set_pk (Some k) u),
     mkStore (<[k := User.set_pk (Some k) u]> (users st)) (profiles st)
             (writes st ++ [INSERT_user k])).
Proof.
  intros Hno. unfold User_insert, bind, get. simpl.
  destruct (decide _) as [Hv|_]; [contradiction|reflexivity].
Qed.

Lemma User_insert_rejected k u st :
  User_unique_violation (Some k) u (users st) →
  User_insert k u st = (inl IntegrityError, st).
Proof.
  intros Hv. unfold User_insert, bind, get. simpl.
  destruct (decide _) as [_|Hno]; [reflexivity|contradiction].
Qed.

Lemma User_update_ok k u st :
  ¬ User_unique_violation (Some k) u (users st) →
  User_update k u st =
    (inr u, mkStore (<[k := u]> (users st)) (profiles st) (writes st ++ [UPDATE_user k])).
Proof.
  intros Hno. unfold User_update, bind, get. simpl.
  destruct (decide _) as [Hv|_]; [contradiction|reflexivity].
Qed.

Lemma User_update_rejected k u st :
  User_unique_violation (Some k) u (users st) →
  User_update k u st = (inl IntegrityError, st).
Proof.
  intros Hv. unfold User_update, bind, get. simpl.
  destruct (decide _) as [_|Hno]; [reflexivity|contradiction].
Qed.

Lemma User_insert_cases k u st :
  (User_unique_violation (Some k) u (users st) ∧
   User_insert k u st = (inl IntegrityError, st)) ∨
  (¬ User_unique_violation (Some k) u (users st) ∧
   User_insert k u st =
     (inr (User.set_pk (Some k) u),
      mkStore (<[k := User.set_pk (Some k) u]> (users st)) (profiles st)
              (writes st ++ [INSERT_user k]))).
Proof.
  destruct (decide (User_unique_violation (Some k) u (users st))) as [Hv|Hno].
  - left. split; [exact Hv|]. apply User_insert_rejected, Hv.
  - right. split; [exact Hno|]. apply User_insert_ok, Hno.
Qed.

(** Writing a row over itself cannot break a unique constraint that the
    other rows did not already stand in the way of. *)
Lemma no_violation_after_insert k u v rows :
  ¬ User_unique_violation (Some k) u rows →
  User.username v = User.username u → User.email v = User.email u →
  ¬ User_unique_violation (Some k) v (<[k := u]> rows).
Proof.
  intros Hno Hun Hem (k' & r & Hk' & Hne & Hc).
  apply Hno. exists k', r.
  destruct (decide (k = k')) as [->|Hkk]; [congruence|].
  rewrite lookup_insert_ne in Hk' by exact Hkk.
  split; [exact Hk'|]. split; [exact Hne|].
  rewrite <- Hun, <- Hem. exact Hc.
Qed.

(** What a successful [save] of a [User] did: an insert under an unused key,
    or an update of the row the instance names. *)
Lemma User_save_inr now u st u' st' :
  User_save now u st = (inr u', st') →
  ∃ k, User.pk u' = Some k ∧
       st' = mkStore (<[k := u']> (users st)) (profiles st)
               (writes st ++ [if bool_decide (is_Some (users st !! k))
                              then UPDATE_user k else INSERT_user k]) ∧
       ¬ User_unique_violation (Some k) u' (users st) ∧
       match User.pk u ≫= (λ j, users st !! j) with
       | Some _ => User.pk u = Some k ∧ is_Some (users st !! k) ∧
                   u' = User_pre_save false now u
       | None => users st !! k = None ∧
                 (User.pk u = None ∨ User.pk u = Some k) ∧
                 u' = User.set_pk (Some k)
                        (User_pre_save true now
                           (match User.pk u with
                            | Some _ => User_pre_save false now u
                            | None => u
                            end))
       end.
Proof.
  unfold User_save. rewrite bind_get.
  destruct (User.pk u) as [k|] eqn:Hpk; simpl.
  - destruct (users st !! k) as [old|] eqn:Hk.
    + destruct (decide (User_unique_violation (Some k) (User_pre_save false now u) (users st)))
        as [Hv|Hno].
      * rewrite User_update_rejected by exact Hv. discriminate.
      * rewrite User_update_ok by exact Hno. intros [= <- <-].
        exists k. rewrite Hk. simpl. rewrite Hpk.
        repeat split; eauto.
    + destruct (User_insert_cases k (User_pre_save true now (User_pre_save false now u)) st)
        as [[_ ->]|[Hno ->]]; [discriminate|].
      intros [= <- <-]. exists k. rewrite Hk. simpl.
      repeat split; eauto.
  - destruct (User_insert_cases (new_key (users st)) (User_pre_save true now u) st)
      as [[_ ->]|[Hno ->]]; [discriminate|].
    intros [= <- <-]. exists (new_key (users st)).
    rewrite new_key_unused. simpl.
    repeat split; eauto.
Qed.

(** A failed [save] leaves the store as it was. *)
Lemma User_save_inl now u st e st' :
  User_save now u st = (inl e, st') → e = IntegrityError ∧ st' = st.
Proof.
  unfold User_save. rewrite bind_get.
  destruct (User.pk u) as [k|]; simpl.
  - destruct (users st !! k).
    + destruct (decide (User_unique_violation (Some k) (User_pre_save false now u) (users st)))
        as [Hv|Hno].
      * rewrite User_update_rejected by exact Hv. intros [= <- <-]. split; reflexivity.
      * rewrite User_update_ok by exact Hno. discriminate.
    + destruct (User_insert_cases k (User_pre_save true now (User_pre_save false now u)) st)
        as [[_ ->]|[_ ->]]; [|discriminate].
      intros [= <- <-]. split; reflexivity.
  - destruct (User_insert_cases (new_key (users st)) (User_pre_save true now u) st)
      as [[_ ->]|[_ ->]]; [|discriminate].
    intros [= <- <-]. split; reflexivity.
Qed.

Lemma User_save_columns now u st u' st' :
  User_save now u st = (inr u', st') →
  User.email u' = User.email u ∧ User.username u' = User.username u.
Proof.
  intros Hsave.
  destruct (User_save_inr _ _ _ _ _ Hsave) as (k & _ & _ & _ & Hcase).
  destruct (User.pk u ≫= (λ j, users st !! j)).
  - destruct Hcase as (_ & _ & ->). split; reflexivity.
  - destruct Hcase as (_ & _ & ->). destruct (User.pk u); split; reflexivity.
Qed.

(** ** The methods of the manager *)

Lemma create_user_unfold `{Framework} fn ln un em pw now st :
  un ≠ "" → em ≠ "" →
  UserManager.create_user fn ln (Some un) (Some em) pw now st =
  User_insert (new_key (users st))
    (User_pre_save true now (fresh_user fn ln un (normalize_email (Some em)) pw)) st.
Proof.
  intros Hun Hem. unfold UserManager.create_user.
  apply truthy_Some in Hun, Hem. rewrite Hun, Hem. simpl.
  rewrite bind_ret_r. unfold User_save. rewrite bind_get. reflexivity.
Qed.

(** The three ways through [create_user]: the email check, the username
    check, and the insert. *)
Lemma create_user_cases `{Framework} fn ln un em pw now st :
  (truthy em = false ∧
   UserManager.create_user fn ln un em pw now st =
     (inl (ValueError "User must have an email address"), st)) ∨
  (truthy em = true ∧ truthy un = false ∧
   UserManager.create_user fn ln un em pw now st =
     (inl (ValueError "User must have a username"), st)) ∨
  (truthy em = true ∧ truthy un = true ∧
   UserManager.create_user fn ln un em pw now st =
     User_insert (new_key (users st))
       (User_pre_save true now (fresh_user fn ln (str_of un) (normalize_email em) pw)) st).
Proof.
  unfold UserManager.create_user.
  destruct (truthy em) eqn:Hem; simpl; [|left; split; reflexivity].
  right. destruct (truthy un) eqn:Hun; simpl; [|left; repeat split; reflexivity].
  right. repeat split.
  rewrite bind_ret_r. unfold User_save. rewrite bind_get. reflexivity.
Qed.

(** What a successful [create_user] returned. *)
Lemma create_user_inr `{Framework} fn ln un em pw now st u st' :
  UserManager.create_user fn ln un em pw now st = (inr u, st') →
  truthy em = true ∧ truthy un = true ∧
  ∃ k, users st !! k = None ∧
       u = User.set_pk (Some k)
             (User_pre_save true now
                (fresh_user fn ln (str_of un) (normalize_email em) pw)) ∧
       ¬ User_unique_violation (Some k) u (users st) ∧
       st' = mkStore (<[k := u]> (users st)) (profiles st)
               (writes st ++ [INSERT_user k]).
Proof.
  destruct (create_user_cases fn ln un em pw now st)
    as [[_ ->]|[(_ & _ & ->)|(Hem & Hun & ->)]]; [discriminate|discriminate|].
  destruct (User_insert_cases (new_key (users st))
              (User_pre_save true now
                 (fresh_user fn ln (str_of un) (normalize_email em) pw)) st)
    as [[_ ->]|[Hno ->]]; [discriminate|].
  intros [= <- <-]. split; [exact Hem|]. split; [exact Hun|].
  exists (new_key (users st)). split; [apply new_key_unused|].
  repeat split. exact Hno.
Qed.

(** [create_user] is its two checks followed by a [save]. *)
Lemma create_user_as_save `{Framework} fn ln un em pw now st :
  (UserManager.create_user fn ln un em pw now st).2 = st ∨
  (truthy em = true ∧ truthy un = true ∧
   UserManager.create_user fn ln un em pw now st =
     User_save now (fresh_user fn ln (str_of un) (normalize_email em) pw) st).
Proof.
  destruct (create_user_cases fn ln un em pw now st)
    as [[_ ->]|[(_ & _ & ->)|(Hem & Hun & ->)]]; [left; reflexivity..|].
  right. split; [exact Hem|]. split; [exact Hun|].
  unfold User_save. rewrite bind_get. reflexivity.
Qed.

(** A creation call whose username, or whose email in its stored form, is
    held by a stored User fails and writes nothing. *)
Lemma create_user_taken `{Framework} fn ln un em pw now st j r :
  users st !! j = Some r →
  str_of un = User.username r ∨ normalize_email em = User.email r →
  ∃ e, UserManager.create_user fn ln un em pw now st = (inl e, st) ∧
       (truthy em = true → truthy un = true → e = IntegrityError).
Proof.
  intros Hj Hsame.
  destruct (create_user_cases fn ln un em pw now st)
    as [[Hem ->]|[(Hem & Hun & ->)|(Hem & Hun & ->)]].
  - eexists. split; [reflexivity|congruence].
  - eexists. split; [reflexivity|congruence].
  - exists IntegrityError. split; [|reflexivity].
    apply User_insert_rejected. exists j, r. split; [exact Hj|]. split.
    + intros [= ->]. rewrite new_key_unused in Hj. discriminate.
    + destruct Hsame as [Hu|He]; [left|right]; split; try reflexivity; cbn; congruence.
Qed.

Lemma create_superuser_unfold `{Framework} fn ln un em pw now1 now2 st :
  UserManager.create_superuser fn ln un em pw now1 now2 st =
  bind (UserManager.create_user fn ln un (Some (normalize_email em)) pw now1)
       (λ user, User_save now2 (elevate user)) st.
Proof.
  unfold UserManager.create_superuser, bind.
  destruct (UserManager.create_user _ _ _ _ _ _ st) as [[e|u] st1]; [reflexivity|].
  apply (bind_ret_r (User_save now2 (elevate u))).
Qed.

(** What a successful [create_superuser] returned, in terms of the base
    User its call of [create_user] returned. *)
Lemma create_superuser_inr `{Framework} fn ln un em pw now1 now2 st su st2 :
  UserManager.create_superuser fn ln un em pw now1 now2 st = (inr su, st2) →
  ∃ k base st1,
    UserManager.create_user fn ln un (Some (normalize_email em)) pw now1 st =
      (inr base, st1) ∧
    User.pk base = Some k ∧
    users st !! k = None ∧
    users st1 = <[k := base]> (users st) ∧
    su = User_pre_save false now2 (elevate base) ∧
    st2 = mkStore (<[k := su]> (users st)) (profiles st)
            (writes st ++ [INSERT_user k; UPDATE_user k]).
Proof.
  rewrite create_superuser_unfold. unfold bind at 1.
  destruct (UserManager.create_user fn ln un (Some (normalize_email em)) pw now1 st)
    as [[e|base] st1] eqn:Hbase; [discriminate|].
  intros Hsave.
  destruct (create_user_inr _ _ _ _ _ _ _ _ _ Hbase)
    as (_ & _ & k & Hk & Hb & _ & Hst1).
  exists k, base, st1. split; [reflexivity|].
  assert (Hpk : User.pk base = Some k) by (rewrite Hb; reflexivity).
  split; [exact Hpk|]. split; [exact Hk|].
  split; [rewrite Hst1; reflexivity|].
  destruct (User_save_inr _ _ _ _ _ Hsave) as (k' & Hpk' & Hst2 & _ & Hcase).
  assert (Hlook : User.pk (elevate base) ≫= (λ j, users st1 !! j) = Some base).
  { change (User.pk (elevate base)) with (User.pk base). rewrite Hpk. simpl.
    rewrite Hst1. simpl. apply lookup_insert_eq. }
  rewrite Hlook in Hcase. destruct Hcase as (Hk' & _ & Hsu).
  change (User.pk (elevate base)) with (User.pk base) in Hk'.
  assert (k' = k) as -> by congruence.
  split; [exact Hsu|].
  rewrite Hst2, Hst1. simpl.
  rewrite lookup_insert_eq, insert_insert_eq, <- app_assoc.
  rewrite bool_decide_eq_true_2 by eauto. reflexivity.
Qed.

(** ** Deletion and profiles *)

(** What [delete] does under the declared [on_delete=models.CASCADE]. *)
Lemma User_delete_run u st :
  User_delete u st =
  match User.pk u with
  | None =>
      (inl (ValueError "User object can't be deleted because its id attribute is set to None."), st)
  | Some k =>
      (inr (), mkStore (delete k (users st)) (not_owned_by k (profiles st))
                 (writes st ++ (DELETE_profile <$> (map_to_list (owned_by k (profiles st))).*1)
                            ++ [DELETE_user k]))
  end.
Proof. unfold User_delete. destruct (User.pk u); reflexivity. Qed.

Lemma not_owned_by_lookup k rows j p :
  not_owned_by k rows !! j = Some p ↔ rows !! j = Some p ∧ UserProfile.user p ≠ Some k.
Proof.
  unfold not_owned_by.
  apply (map_lookup_filter_Some (λ kp : nat * UserProfile.t, UserProfile.user kp.2 ≠ Some k)).
Qed.

Lemma owned_by_lookup k rows j p :
  owned_by k rows !! j = Some p ↔ rows !! j = Some p ∧ UserProfile.user p = Some k.
Proof.
  unfold owned_by.
  apply (map_lookup_filter_Some (λ kp : nat * UserProfile.t, UserProfile.user kp.2 = Some k)).
Qed.

(** The two outcomes of writing a profile row. *)
Lemma Profile_write_cases insert k p st :
  Profile_write insert k p st = (inl IntegrityError, st) ∨
  (Profile_reference_ok p (users st) ∧
   ¬ map_Exists (Profile_conflicts (Some k) p) (profiles st) ∧
   Profile_write insert k p st =
     (inr (UserProfile.set_pk (Some k) p),
      mkStore (users st) (<[k := UserProfile.set_pk (Some k) p]> (profiles st))
        (writes st ++ [if insert then INSERT_profile k else UPDATE_profile k]))).
Proof.
  unfold Profile_write. rewrite bind_get.
  destruct (decide (Profile_reference_ok p (users st))) as [Hok|_]; [|left; reflexivity].
  destruct (decide (map_Exists (Profile_conflicts (Some k) p) (profiles st)))
    as [_|Hno]; [left; reflexivity|].
  right. split; [exact Hok|]. split; [exact Hno|reflexivity].
Qed.

Lemma Profile_write_users insert k p st :
  users (Profile_write insert k p st).2 = users st.
Proof.
  destruct (Profile_write_cases insert k p st) as [->|(_ & _ & ->)]; reflexivity.
Qed.

Lemma UserProfile_save_unfold now p st :
  ∃ insert k q, UserProfile_save now p st = Profile_write insert k q st.
Proof.
  unfold UserProfile_save. rewrite bind_get.
  destruct (UserProfile.pk p) as [k|]; [destruct (profiles st !! k)|]; eauto.
Qed.

(** ** Invariants of the stores this core can produce *)

Lemma consistent_empty : consistent empty_store.
Proof.
  repeat split.
  - intros k1 k2 u1 u2 Hk1. cbn in Hk1. rewrite lookup_empty in Hk1. discriminate.
  - intros k1 k2 p1 p2 o Hk1. cbn in Hk1. rewrite lookup_empty in Hk1. discriminate.
  - intros k p o Hk. cbn in Hk. rewrite lookup_empty in Hk. discriminate.
Qed.

(** Writing a User row that no other row stands in the way of. *)
Lemma write_user_consistent k u st w :
  ¬ User_unique_violation (Some k) u (users st) →
  consistent st →
  consistent (mkStore (<[k := u]> (users st)) (profiles st) w).
Proof.
  intros Hno (Huniq & Hone & Hown). repeat split.
  - intros k1 k2 u1 u2 Hk1 Hk2 Hsame. cbn in Hk1, Hk2.
    destruct (decide (k1 = k2)) as [|Hne]; [assumption|exfalso].
    destruct (decide (k = k1)) as [->|Hk1'].
    + rewrite lookup_insert_eq in Hk1. injection Hk1 as ->.
      rewrite lookup_insert_ne in Hk2 by exact Hne.
      apply Hno. exists k2, u2. split; [exact Hk2|].
      split; [congruence|]. destruct Hsame as [He|Hu]; [right|left]; split; auto.
    + rewrite lookup_insert_ne in Hk1 by exact Hk1'.
      destruct (decide (k = k2)) as [->|Hk2'].
      * rewrite lookup_insert_eq in Hk2. injection Hk2 as ->.
        apply Hno. exists k1, u1. split; [exact Hk1|].
        split; [congruence|]. destruct Hsame as [He|Hu]; [right|left]; split; auto.
      * rewrite lookup_insert_ne in Hk2 by exact Hk2'.
        apply Hne. exact (Huniq _ _ _ _ Hk1 Hk2 Hsame).
  - exact Hone.
  - intros j p o Hj Ho. cbn in Hj |- *.
    destruct (decide (k = o)) as [->|Hne].
    + rewrite lookup_insert_eq. eauto.
    + rewrite lookup_insert_ne by exact Hne. exact (Hown _ _ _ Hj Ho).
Qed.

Lemma write_user_named k u st w :
  User.email u ≠ "" → User.username u ≠ "" →
  users_named st →
  users_named (mkStore (<[k := u]> (users st)) (profiles st) w).
Proof.
  intros He Hu Hnamed j r Hj. cbn in Hj.
  destruct (decide (k = j)) as [->|Hne].
  - rewrite lookup_insert_eq in Hj. injection Hj as <-. split; assumption.
  - rewrite lookup_insert_ne in Hj by exact Hne. exact (Hnamed _ _ Hj).
Qed.

Lemma User_save_consistent now u st :
  consistent st → consistent (User_save now u st).2.
Proof.
  intros Hc. destruct (User_save now u st) as [[e|u'] st'] eqn:Hsave; simpl.
  - apply User_save_inl in Hsave as [_ ->]. exact Hc.
  - destruct (User_save_inr _ _ _ _ _ Hsave) as (k & _ & -> & Hno & _).
    apply write_user_consistent; assumption.
Qed.

Lemma User_save_named now u st :
  User.email u ≠ "" → User.username u ≠ "" →
  users_named st → users_named (User_save now u st).2.
Proof.
  intros He Hu Hn. destruct (User_save now u st) as [[e|u'] st'] eqn:Hsave; simpl.
  - apply User_save_inl in Hsave as [_ ->]. exact Hn.
  - destruct (User_save_columns _ _ _ _ _ Hsave) as [He' Hu'].
    destruct (User_save_inr _ _ _ _ _ Hsave) as (k & _ & -> & _ & _).
    apply write_user_named; [congruence|congruence|exact Hn].
Qed.

Lemma create_user_consistent `{Framework} fn ln un em pw now st :
  consistent st → consistent (UserManager.create_user fn ln un em pw now st).2.
Proof.
  intros Hc. destruct (create_user_as_save fn ln un em pw now st)
    as [->|(_ & _ & ->)]; [exact Hc|].
  apply User_save_consistent, Hc.
Qed.

Lemma create_user_named `{Framework} fn ln un em pw now st :
  normalizer_keeps_nonempty →
  users_named st → users_named (UserManager.create_user fn ln un em pw now st).2.
Proof.
  intros Hnz Hn. destruct (create_user_as_save fn ln un em pw now st)
    as [->|(Hem & Hun & ->)]; [exact Hn|].
  apply User_save_named; [| |exact Hn].
  - apply truthy_normalized; assumption.
  - apply truthy_str_of. exact Hun.
Qed.

Lemma create_superuser_consistent `{Framework} fn ln un em pw now1 now2 st :
  consistent st →
  consistent (UserManager.create_superuser fn ln un em pw now1 now2 st).2.
Proof.
  intros Hc. rewrite create_superuser_unfold, bind_snd.
  pose proof (create_user_consistent fn ln un (Some (normalize_email em)) pw now1 st Hc)
    as Hc1.
  destruct (UserManager.create_user fn ln un (Some (normalize_email em)) pw now1 st)
    as [[e|base] st1]; [exact Hc1|].
  apply User_save_consistent. exact Hc1.
Qed.

Lemma create_superuser_named `{Framework} fn ln un em pw now1 now2 st :
  normalizer_keeps_nonempty →
  users_named st →
  users_named (UserManager.create_superuser fn ln un em pw now1 now2 st).2.
Proof.
  intros Hnz Hn. rewrite create_superuser_unfold, bind_snd.
  pose proof (create_user_named fn ln un (Some (normalize_email em)) pw now1 st Hnz Hn)
    as Hn1.
  destruct (UserManager.create_user fn ln un (Some (normalize_email em)) pw now1 st)
    as [[e|base] st1] eqn:Hbase; [exact Hn1|].
  destruct (create_user_inr _ _ _ _ _ _ _ _ _ Hbase)
    as (Hem & Hun & k & _ & Hb & _).
  apply User_save_named; [| |exact Hn1].
  - rewrite Hb. cbn. apply truthy_normalized; assumption.
  - rewrite Hb. cbn. apply truthy_str_of. exact Hun.
Qed.

Lemma User_delete_consistent u st :
  consistent st → consistent (User_delete u st).2.
Proof.
  intros (Huniq & Hone & Hown). rewrite User_delete_run.
  destruct (User.pk u) as [k|]; [|repeat split; assumption].
  repeat split.
  - intros k1 k2 u1 u2 Hk1 Hk2. cbn in Hk1, Hk2.
    apply lookup_delete_Some in Hk1 as [_ Hk1].
    apply lookup_delete_Some in Hk2 as [_ Hk2].
    exact (Huniq _ _ _ _ Hk1 Hk2).
  - intros k1 k2 p1 p2 o Hk1 Hk2. cbn in Hk1, Hk2.
    apply not_owned_by_lookup in Hk1 as [Hk1 _].
    apply not_owned_by_lookup in Hk2 as [Hk2 _].
    exact (Hone _ _ _ _ _ Hk1 Hk2).
  - intros j p o Hj Ho. cbn in Hj |- *.
    apply not_owned_by_lookup in Hj as [Hj Hne].
    rewrite lookup_delete_ne by congruence.
    exact (Hown _ _ _ Hj Ho).
Qed.

Lemma User_delete_named u st :
  users_named st → users_named (User_delete u st).2.
Proof.
  intros Hn. rewrite User_delete_run.
  destruct (User.pk u) as [k|]; [|exact Hn].
  intros j r Hj. cbn in Hj. apply lookup_delete_Some in Hj as [_ Hj].
  exact (Hn _ _ Hj).
Qed.

Lemma Profile_write_consistent insert k p st :
  consistent st → consistent (Profile_write insert k p st).2.
Proof.
  intros Hc. destruct (Profile_write_cases insert k p st) as [->|(Hok & Hno & ->)];
    [exact Hc|].
  destruct Hc as (Huniq & Hone & Hown). repeat split.
  - exact Huniq.
  - intros k1 k2 p1 p2 o Hk1 Hk2 Ho1 Ho2. cbn in Hk1, Hk2.
    destruct (decide (k1 = k2)) as [|Hne]; [assumption|exfalso].
    destruct (decide (k = k1)) as [->|Hk1'].
    + rewrite lookup_insert_eq in Hk1. injection Hk1 as <-.
      rewrite lookup_insert_ne in Hk2 by exact Hne.
      apply Hno. exists k2, p2. split; [exact Hk2|].
      cbn in Ho1. split; [congruence|]. split; [eauto|congruence].
    + rewrite lookup_insert_ne in Hk1 by exact Hk1'.
      destruct (decide (k = k2)) as [->|Hk2'].
      * rewrite lookup_insert_eq in Hk2. injection Hk2 as <-.
        apply Hno. exists k1, p1. split; [exact Hk1|].
        cbn in Ho2. split; [congruence|]. split; [eauto|congruence].
      * rewrite lookup_insert_ne in Hk2 by exact Hk2'.
        apply Hne. exact (Hone _ _ _ _ _ Hk1 Hk2 Ho1 Ho2).
  - intros j q o Hj Ho. cbn in Hj |- *.
    destruct (decide (k = j)) as [->|Hne].
    + rewrite lookup_insert_eq in Hj. injection Hj as <-. cbn in Ho.
      unfold Profile_reference_ok in Hok. rewrite Ho in Hok. exact Hok.
    + rewrite lookup_insert_ne in Hj by exact Hne. exact (Hown _ _ _ Hj Ho).
Qed.

Lemma UserProfile_save_consistent now p st :
  consistent st → consistent (UserProfile_save now p st).2.
Proof.
  intros Hc. destruct (UserProfile_save_unfold now p st) as (i & k & q & ->).
  apply Profile_write_consistent, Hc.
Qed.

Lemma UserProfile_save_named now p st :
  users_named st → users_named (UserProfile_save now p st).2.
Proof.
  intros Hn. destruct (UserProfile_save_unfold now p st) as (i & k & q & ->).
  unfold users_named. rewrite Profile_write_users. exact Hn.
Qed.

(** Every store this core can produce is consistent. *)
Lemma reachable_consistent `{Framework} st : reachable st → consistent st.
Proof.
  induction 1 as [|op st _ IH]; [apply consistent_empty|].
  destruct op; cbn [exec].
  - apply create_user_consistent, IH.
  - apply create_superuser_consistent, IH.
  - apply User_delete_consistent, IH.
  - apply UserProfile_save_consistent, IH.
Qed.

(** Every User in a store this core can produce has an email and a
    username, when the normalisation routine keeps non-empty addresses
    non-empty. *)
Lemma reachable_named `{Framework} st :
  normalizer_keeps_nonempty → reachable st → users_named st.
Proof.
  intros Hnz. induction 1 as [|op st _ IH].
  - intros k u Hk. cbn in Hk. rewrite lookup_empty in Hk. discriminate.
  - destruct op; cbn [exec].
    + apply create_user_named; assumption.
    + apply create_superuser_named; assumption.
    + apply User_delete_named, IH.
    + apply UserProfile_save_named, IH.
Qed.

(** ** The concrete environment and the sample stores *)

Lemma ascii_normalize_keeps_empty : normalizer_keeps_empty (H := Ascii_env.framework).
Proof. split; reflexivity. Qed.

Lemma ascii_normalize_keeps_nonempty : normalizer_keeps_nonempty (H := Ascii_env.framework).
Proof.
  intros e He. simpl. unfold Ascii_env.normalize. simpl.
  destruct (Ascii_env.rsplit_at (Ascii_env.strip e)) as [[name dom]|].
  - destruct name; discriminate.
  - exact He.
Qed.

Lemma sample_store_reachable : reachable (H := Ascii_env.framework) sample_store.
Proof.
  change sample_store with
    (exec (H := Ascii_env.framework)
       (Create_user "Alice" "Liddell" (Some "alice") (Some "alice@Example.com")
          (Some "secret") 5) empty_store).
  apply reachable_exec, reachable_empty.
Qed.

Lemma store_with_profiles_reachable :
  reachable (H := Ascii_env.framework) store_with_profiles.
Proof.
  change store_with_profiles with
    (exec (H := Ascii_env.framework) (Save_profile (UserProfile.blank None) 7)
       (exec (H := Ascii_env.framework) (Save_profile (UserProfile.blank (Some 0)) 6)
          sample_store)).
  do 2 apply reachable_exec. apply sample_store_reachable.
Qed.

(** * Properties of the specification *)

(** ** C1: what [create_user] persists *)

(** C1 (as amended).  For every input with a non-empty email and a non-empty
    username such that no persisted User already holds that username or the
    normalized email, [create_user] succeeds and persists exactly one User:
    a row under a key that was not in use, with the normalized email, the
    given username, first and last name, the hashed credential, and the
    flags [is_admin], [is_active], [is_superadmin], [is_staff] (and
    [is_superuser]) all false.  The other rows, the profiles and the earlier
    writes are untouched, and one insert is logged. *)
Theorem create_user_persists_one_user `{Framework}
    (first_name last_name username email : string) (password : option string)
    (now : Z) (st : Store) :
  email ≠ "" → username ≠ "" →
  available username (normalize_email (Some email)) (users st) →
  ∃ k u,
    users st !! k = None ∧
    u = {| User.pk := Some k;
           User.password := make_password password;
           User.is_superuser := false;
           User.first_name := first_name;
           User.last_name := last_name;
           User.username := username;
           User.email := normalize_email (Some email);
           User.phone_number := "";
           User.role := None;
           User.date_joined := Some now;
           User.last_login := Some now;
           User.modified_date := Some now;
           User.created_date := Some now;
           User.is_admin := false;
           User.is_active := false;
           User.is_superadmin := false;
           User.is_staff := false |} ∧
    UserManager.create_user first_name last_name (Some username) (Some email)
      password now st =
      (inr u, mkStore (<[k := u]> (users st)) (profiles st)
                      (writes st ++ [INSERT_user k])) ∧
    size (<[k := u]> (users st)) = S (size (users st)).
Proof.
  intros Hem Hun Hav.
  exists (new_key (users st)). eexists. split; [apply new_key_unused|].
  split; [reflexivity|]. split.
  - rewrite create_user_unfold by assumption.
    rewrite User_insert_ok; [reflexivity|].
    apply available_no_violation. exact Hav.
  - apply map_size_insert_None, new_key_unused.
Qed.

Lemma create_user_persists_one_user_witness :
  ∃ k u,
    users sample_store !! k = None ∧
    u = {| User.pk := Some k;
           User.password := "stub$wp";
           User.is_superuser := false;
           User.first_name := "Bob";
           User.last_name := "Builder";
           User.username := "bob";
           User.email := "Bob@example.com";
           User.phone_number := "";
           User.role := None;
           User.date_joined := Some 10%Z;
           User.last_login := Some 10%Z;
           User.modified_date := Some 10%Z;
           User.created_date := Some 10%Z;
           User.is_admin := false;
           User.is_active := false;
           User.is_superadmin := false;
           User.is_staff := false |} ∧
    UserManager.create_user "Bob" "Builder" (Some "bob") (Some " Bob@Example.COM")
      (Some "pw") 10 sample_store =
      (inr u, mkStore (<[k := u]> (users sample_store)) (profiles sample_store)
                      (writes sample_store ++ [INSERT_user k])) ∧
    size (<[k := u]> (users sample_store)) = S (size (users sample_store)).
Proof.
  apply (create_user_persists_one_user (H := Ascii_env.framework)
           "Bob" "Builder" "bob" " Bob@Example.COM" (Some "pw") 10 sample_store).
  - discriminate.
  - discriminate.
  - compute_done.
Defined.

(** C1 as stated fails: with a non-empty email and a non-empty username the
    call is still rejected when the username is already taken, and then no
    User is persisted. *)
Lemma create_user_taken_username_not_persisted :
  ¬ (∀ (F : Framework) (first_name last_name username email : string)
       (password : option string) (now : Z) (st : Store),
       email ≠ "" → username ≠ "" →
       ∃ u st',
         UserManager.create_user first_name last_name (Some username)
           (Some email) password now st = (inr u, st') ∧
         size (users st') = S (size (users st))).
Proof.
  intros Hclaim.
  destruct (Hclaim Ascii_env.framework "Al" "Ice" "alice" "al@example.org"
              None 7%Z sample_store) as (u & st' & Hrun & _);
    [discriminate|discriminate|].
  vm_compute in Hrun. discriminate Hrun.
Qed.

(** What the code does at that input. *)
Example create_user_taken_username_run :
  UserManager.create_user (H := Ascii_env.framework) "Al" "Ice" (Some "alice")
    (Some "al@example.org") None 7 sample_store
  = (inl IntegrityError, sample_store).
Proof. vm_compute. reflexivity. Qed.

(** ** C2: the validation failures of [create_user] *)

(** C2.  [create_user] fails with the validation error ([ValueError])
    exactly when the email argument is absent or empty or the username
    argument is absent or empty; whenever it fails so, the store is left as
    it was.  These two are the only validation failures: any other failure
    of [create_user] is the storage layer's constraint violation, and that
    one leaves the store unchanged as well. *)
Theorem create_user_validation `{Framework}
    (first_name last_name : string) (username email password : option string)
    (now : Z) (st : Store) :
  (is_ValueError (UserManager.create_user first_name last_name username email password now st) = true
     ↔ (email = None ∨ email = Some "") ∨ (username = None ∨ username = Some "")) ∧
  (is_ValueError (UserManager.create_user first_name last_name username email password now st) = true
     → (UserManager.create_user first_name last_name username email password now st).2 = st) ∧
  (∀ e, (UserManager.create_user first_name last_name username email password now st).1 = inl e →
     (e = ValueError "User must have an email address" ∧ (email = None ∨ email = Some "")) ∨
     (e = ValueError "User must have a username" ∧ (username = None ∨ username = Some "")) ∨
     e = IntegrityError) ∧
  (succeeded (UserManager.create_user first_name last_name username email password now st) = false
     → (UserManager.create_user first_name last_name username email password now st).2 = st).
Proof.
  pose proof (truthy_false email) as Te.
  pose proof (truthy_false username) as Tu.
  destruct (create_user_cases first_name last_name username email password now st)
    as [[Hem ->]|[(Hem & Hun & ->)|(Hem & Hun & ->)]].
  - apply Te in Hem. repeat split; try reflexivity.
    + intros _. left. exact Hem.
    + intros e [= <-]. left. split; [reflexivity|exact Hem].
  - apply Tu in Hun. repeat split; try reflexivity.
    + intros _. right. exact Hun.
    + intros e [= <-]. right. left. split; [reflexivity|exact Hun].
  - assert (Hvalid : ¬ ((email = None ∨ email = Some "") ∨
                        (username = None ∨ username = Some ""))).
    { intros [He|Hu]; [apply Te in He|apply Tu in Hu]; congruence. }
    destruct (User_insert_cases (new_key (users st))
               (User_pre_save true now
                  (fresh_user first_name last_name (str_of username)
                     (normalize_email email) password)) st)
      as [[_ ->]|[_ ->]].
    + repeat split; try reflexivity; try discriminate.
      * intros Hbad. contradiction.
      * intros e [= <-]. right. right. reflexivity.
    + repeat split; try discriminate.
      intros Hbad. contradiction.
Qed.

(** The two failures on the sample store, and a call that passes both
    checks. *)
Example create_user_without_email :
  UserManager.create_user (H := Ascii_env.framework) "Bob" "Builder" (Some "bob")
    (Some "") (Some "pw") 10 sample_store
  = (inl (ValueError "User must have an email address"), sample_store) ∧
  UserManager.create_user (H := Ascii_env.framework) "Bob" "Builder" None
    None (Some "pw") 10 sample_store
  = (inl (ValueError "User must have an email address"), sample_store).
Proof. split; vm_compute; reflexivity. Qed.

Example create_user_without_username :
  UserManager.create_user (H := Ascii_env.framework) "Bob" "Builder" (Some "")
    (Some "bob@example.com") (Some "pw") 10 sample_store
  = (inl (ValueError "User must have a username"), sample_store) ∧
  UserManager.create_user (H := Ascii_env.framework) "Bob" "Builder" None
    (Some "bob@example.com") (Some "pw") 10 sample_store
  = (inl (ValueError "User must have a username"), sample_store).
Proof. split; vm_compute; reflexivity. Qed.

(** ** C3: [create_superuser] *)

(** C3.  Let the normalisation routine keep empty addresses empty and
    non-empty ones non-empty.  For a valid input (email and username not
    empty, and neither the username nor the stored form of the email held
    by a persisted User), [create_superuser] obtains the base User from
    [create_user], called with the normalized email, which inserts it; it
    then writes the same row again with [is_admin], [is_active],
    [is_superadmin] and [is_staff] true: two writes in all, an insert and an
    update of one key.  When the email or the username is absent or empty,
    [create_superuser] fails with the very validation error [create_user]
    gives on that input, and the store is unchanged. *)
Theorem create_superuser_elevates `{Framework}
    (first_name last_name : string) (username email password : option string)
    (now1 now2 : Z) (st : Store) :
  normalizer_keeps_empty → normalizer_keeps_nonempty →
  (truthy email = true → truthy username = true →
   available (str_of username) (normalize_email (Some (normalize_email email))) (users st) →
   ∃ k base su,
     users st !! k = None ∧
     UserManager.create_user first_name last_name username
       (Some (normalize_email email)) password now1 st =
       (inr base, mkStore (<[k := base]> (users st)) (profiles st)
                          (writes st ++ [INSERT_user k])) ∧
     UserManager.create_superuser first_name last_name username email password
       now1 now2 st =
       (inr su, mkStore (<[k := su]> (users st)) (profiles st)
                        (writes st ++ [INSERT_user k; UPDATE_user k])) ∧
     su = User.set_timestamps (User.date_joined base) (User.last_login base)
            (User.modified_date base) (Some now2) (elevate base) ∧
     User.is_admin su = true ∧ User.is_active su = true ∧
     User.is_superadmin su = true ∧ User.is_staff su = true) ∧
  (truthy email = false ∨ truthy username = false →
   ∃ msg,
     UserManager.create_user first_name last_name username email password now1 st =
       (inl (ValueError msg), st) ∧
     UserManager.create_superuser first_name last_name username email password
       now1 now2 st = (inl (ValueError msg), st)).
Proof.
  intros [HnNone HnEmpty] Hnz. split.
  - intros Hem Hun Hav.
    assert (Hem' : truthy (Some (normalize_email email)) = true).
    { destruct email as [e|]; [|discriminate Hem].
      apply truthy_Some. apply Hnz. apply truthy_Some. exact Hem. }
    set (k := new_key (users st)).
    set (base := User.set_pk (Some k)
                   (User_pre_save true now1
                      (fresh_user first_name last_name (str_of username)
                         (normalize_email (Some (normalize_email email))) password))).
    assert (Hno : ¬ User_unique_violation (Some k)
                    (User_pre_save true now1
                       (fresh_user first_name last_name (str_of username)
                          (normalize_email (Some (normalize_email email))) password))
                    (users st)).
    { apply available_no_violation. exact Hav. }
    assert (Hbase :
      UserManager.create_user first_name last_name username
        (Some (normalize_email email)) password now1 st =
        (inr base, mkStore (<[k := base]> (users st)) (profiles st)
                           (writes st ++ [INSERT_user k]))).
    { destruct (create_user_cases first_name last_name username
                  (Some (normalize_email email)) password now1 st)
        as [[Hbad _]|[(_ & Hbad & _)|(_ & _ & ->)]]; [congruence|congruence|].
      apply User_insert_ok. exact Hno. }
    exists k, base. eexists. split; [apply new_key_unused|].
    split; [exact Hbase|]. split; [|split; [reflexivity|repeat split]].
    rewrite create_superuser_unfold.
    rewrite (bind_inr _ _ _ _ _ Hbase).
    unfold User_save. rewrite bind_get. cbn [User.pk elevate base User.set_pk
      User.set_is_superuser User.set_is_staff User.set_is_superadmin
      User.set_is_active User.set_is_admin users].
    rewrite lookup_insert_eq.
    rewrite User_update_ok.
    + cbn [users profiles writes]. rewrite insert_insert_eq, <- app_assoc.
      reflexivity.
    + cbn [users]. apply no_violation_after_insert; [|reflexivity|reflexivity].
      intros Hv. apply Hno. exact Hv.
  - intros Hbad.
    destruct (create_user_cases first_name last_name username email password now1 st)
      as [[Hem Hrun]|[(Hem & Hun & Hrun)|(Hem & Hun & _)]].
    + eexists. split; [exact Hrun|].
      rewrite create_superuser_unfold.
      assert (Hem' : truthy (Some (normalize_email email)) = false).
      { apply truthy_false in Hem as [->| ->];
          [rewrite HnNone|rewrite HnEmpty]; reflexivity. }
      destruct (create_user_cases first_name last_name username
                  (Some (normalize_email email)) password now1 st)
        as [[_ Hrun']|[(Hx & _)|(Hx & _)]]; [|congruence|congruence].
      apply (bind_inl _ _ _ _ _ Hrun').
    + eexists. split; [exact Hrun|].
      rewrite create_superuser_unfold.
      assert (Hem' : truthy (Some (normalize_email email)) = true).
      { destruct email as [e|]; [|discriminate Hem].
        apply truthy_Some. apply Hnz. apply truthy_Some. exact Hem. }
      destruct (create_user_cases first_name last_name username
                  (Some (normalize_email email)) password now1 st)
        as [[Hx _]|[(_ & _ & Hrun')|(_ & Hx & _)]]; [congruence| |congruence].
      apply (bind_inl _ _ _ _ _ Hrun').
    + destruct Hbad; congruence.
Qed.

Lemma create_superuser_elevates_witness :
  (∃ k base su,
     users sample_store !! k = None ∧
     UserManager.create_user "Root" "Admin" (Some "root")
       (Some (normalize_email (Some "Root@Example.COM"))) (Some "pw") 10 sample_store =
       (inr base, mkStore (<[k := base]> (users sample_store)) (profiles sample_store)
                          (writes sample_store ++ [INSERT_user k])) ∧
     UserManager.create_superuser "Root" "Admin" (Some "root")
       (Some "Root@Example.COM") (Some "pw") 10 20 sample_store =
       (inr su, mkStore (<[k := su]> (users sample_store)) (profiles sample_store)
                        (writes sample_store ++ [INSERT_user k; UPDATE_user k])) ∧
     su = User.set_timestamps (User.date_joined base) (User.last_login base)
            (User.modified_date base) (Some 20%Z) (elevate base) ∧
     User.is_admin su = true ∧ User.is_active su = true ∧
     User.is_superadmin su = true ∧ User.is_staff su = true) ∧
  (∃ msg,
     UserManager.create_user "Root" "Admin" (Some "root") None (Some "pw") 10 sample_store =
       (inl (ValueError msg), sample_store) ∧
     UserManager.create_superuser "Root" "Admin" (Some "root") None (Some "pw")
       10 20 sample_store = (inl (ValueError msg), sample_store)).
Proof.
  split.
  - apply (proj1 (create_superuser_elevates (H := Ascii_env.framework)
                    "Root" "Admin" (Some "root") (Some "Root@Example.COM")
                    (Some "pw") 10 20 sample_store
                    ascii_normalize_keeps_empty ascii_normalize_keeps_nonempty)).
    + reflexivity.
    + reflexivity.
    + compute_done.
  - apply (proj2 (create_superuser_elevates (H := Ascii_env.framework)
                    "Root" "Admin" (Some "root") None
                    (Some "pw") 10 20 sample_store
                    ascii_normalize_keeps_empty ascii_normalize_keeps_nonempty)).
    left. reflexivity.
Defined.

(** A run of [create_superuser] on the store holding [alice]. *)
Example create_superuser_run :
  UserManager.create_superuser (H := Ascii_env.framework) "Root" "Admin"
    (Some "root") (Some "Root@Example.COM") (Some "pw") 10 20 sample_store
  = (inr root, store_with_root).
Proof. vm_compute. reflexivity. Qed.

(** ** C4: the permission predicates *)

(** C4.  [has_perms] is true exactly when [is_admin] or [is_superadmin] or
    [is_staff] is, and [has_module_perms] exactly when [is_staff] or
    [is_admin] or [is_superadmin] is.  Both depend on these three flags
    alone: two users that agree on them get the same answers whatever the
    permission list, object or application label, and whatever their role
    and other columns.  A user with [is_staff] true satisfies both; a user
    with the three flags false satisfies neither. *)
Theorem permission_predicates (u : User.t) (perms : list string)
    (obj : option nat) (app_label : string) :
  (User.has_perms u perms obj = true ↔
     User.is_admin u = true ∨ User.is_superadmin u = true ∨ User.is_staff u = true) ∧
  (User.has_module_perms u app_label = true ↔
     User.is_staff u = true ∨ User.is_admin u = true ∨ User.is_superadmin u = true) ∧
  (∀ (v : User.t) (perms' : list string) (obj' : option nat) (app_label' : string),
     User.is_admin v = User.is_admin u →
     User.is_superadmin v = User.is_superadmin u →
     User.is_staff v = User.is_staff u →
     User.has_perms v perms' obj' = User.has_perms u perms obj ∧
     User.has_module_perms v app_label' = User.has_module_perms u app_label) ∧
  (User.is_staff u = true →
     User.has_perms u perms obj = true ∧ User.has_module_perms u app_label = true) ∧
  (User.is_admin u = false → User.is_superadmin u = false → User.is_staff u = false →
     User.has_perms u perms obj = false ∧ User.has_module_perms u app_label = false).
Proof.
  unfold User.has_perms, User.has_module_perms.
  split; [|split; [|split; [|split]]].
  - rewrite !orb_true_iff. tauto.
  - rewrite !orb_true_iff. tauto.
  - intros v perms' obj' app_label' -> -> ->. split; reflexivity.
  - intros ->. rewrite !orb_true_r. split; [reflexivity|].
    destruct (User.is_admin u), (User.is_superadmin u); reflexivity.
  - intros -> -> ->. split; reflexivity.
Qed.

(** The two cases the specification lists: staff only, and no flag at all
    (with a role set, which changes nothing). *)
Example staff_only_has_both :
  let u := User.set_is_staff true alice in
  User.has_perms u ["accounts.add_user"] None = true ∧
  User.has_module_perms u "accounts" = true.
Proof. split; reflexivity. Qed.

Example no_flag_has_neither :
  User.has_perms alice ["accounts.add_user"] (Some 3) = false ∧
  User.has_module_perms alice "accounts" = false ∧
  User.has_perms (User.set_is_active true alice) [] None = false.
Proof. repeat split; reflexivity. Qed.

(** ** C5: uniqueness of email and username *)

(** C5.  In every store this core can produce (the normalisation routine
    keeping non-empty addresses non-empty), no two persisted Users share an
    email or a username, and every persisted User has a non-empty email and
    a non-empty username.  A [create_user] call that follows a successful
    one and repeats its email or its username, whatever its other data,
    fails without writing, with the storage layer's constraint violation
    when its own email and username are not empty; so does any
    [create_user] or [create_superuser] call whose username, or email in
    its stored form, a persisted User already holds. *)
Theorem email_and_username_unique_and_mandatory `{Framework} (st : Store) :
  normalizer_keeps_nonempty → reachable st →
  users_unique st ∧
  users_named st ∧
  (∀ fn ln un em pw now u st1,
     UserManager.create_user fn ln un em pw now st = (inr u, st1) →
     ∀ fn' ln' un' em' pw' now',
       un' = un ∨ em' = em →
       ∃ e, UserManager.create_user fn' ln' un' em' pw' now' st1 = (inl e, st1) ∧
            (truthy em' = true → truthy un' = true → e = IntegrityError)) ∧
  (∀ j r, users st !! j = Some r →
     ∀ fn ln un em pw now1 now2,
       (str_of un = User.username r ∨ normalize_email em = User.email r →
        ∃ e, UserManager.create_user fn ln un em pw now1 st = (inl e, st)) ∧
       (str_of un = User.username r ∨
        normalize_email (Some (normalize_email em)) = User.email r →
        ∃ e, UserManager.create_superuser fn ln un em pw now1 now2 st = (inl e, st))).
Proof.
  intros Hnz Hreach.
  split; [apply reachable_consistent, Hreach|].
  split; [apply reachable_named; assumption|]. split.
  - intros fn ln un em pw now u st1 Hrun fn' ln' un' em' pw' now' Hsame.
    destruct (create_user_inr _ _ _ _ _ _ _ _ _ Hrun)
      as (_ & _ & k & _ & Hu & _ & Hst1).
    apply (create_user_taken fn' ln' un' em' pw' now' st1 k u).
    + rewrite Hst1. apply lookup_insert_eq.
    + rewrite Hu. cbn. destruct Hsame as [->| ->]; [left|right]; reflexivity.
  - intros j r Hj fn ln un em pw now1 now2. split.
    + intros Hsame.
      destruct (create_user_taken fn ln un em pw now1 st j r Hj Hsame) as (e & He & _).
      exists e. exact He.
    + intros Hsame.
      destruct (create_user_taken fn ln un (Some (normalize_email em)) pw now1 st j r
                  Hj Hsame) as (e & He & _).
      exists e. rewrite create_superuser_unfold. apply (bind_inl _ _ _ _ _ He).
Qed.

Lemma email_and_username_unique_and_mandatory_witness :
  users_unique sample_store ∧ users_named sample_store ∧
  (∃ e, UserManager.create_user (H := Ascii_env.framework) "Al" "Ice" (Some "al")
          (Some "alice@EXAMPLE.com") None 7 sample_store = (inl e, sample_store)) ∧
  (∃ e, UserManager.create_superuser (H := Ascii_env.framework) "Al" "Ice"
          (Some "alice") (Some "al@example.org") None 7 8 sample_store
        = (inl e, sample_store)).
Proof.
  destruct (email_and_username_unique_and_mandatory (H := Ascii_env.framework)
              sample_store ascii_normalize_keeps_nonempty sample_store_reachable)
    as (Huniq & Hnamed & _ & Htaken).
  split; [exact Huniq|]. split; [exact Hnamed|].
  assert (Halice : users sample_store !! 0 = Some alice) by (vm_compute; reflexivity).
  split.
  - apply (proj1 (Htaken 0 alice Halice "Al" "Ice" (Some "al")
                    (Some "alice@EXAMPLE.com") None 7%Z 8%Z)).
    right. vm_compute. reflexivity.
  - apply (proj2 (Htaken 0 alice Halice "Al" "Ice" (Some "alice")
                    (Some "al@example.org") None 7%Z 8%Z)).
    left. reflexivity.
Defined.

(** ** C6: the timestamp columns *)

(** C6.  A save that inserts a User sets [date_joined], [last_login],
    [modified_date] and [created_date] to the instant of the save.  A save
    over an existing row writes [date_joined], [last_login] and
    [modified_date] as the instance carries them, without recomputing them,
    and sets [created_date] to the instant of the save.  In particular, the
    re-save of superuser elevation leaves the three at the instant of
    creation and moves [created_date] alone to the instant of the re-save. *)
Theorem timestamps_set_on_insert_or_on_every_save `{Framework} :
  (∀ (now : Z) (u u' : User.t) (st st' : Store),
     User_save now u st = (inr u', st') →
     (∃ k, User.pk u' = Some k ∧ users st' !! k = Some u') ∧
     match User.pk u ≫= (λ j, users st !! j) with
     | None =>
         User.date_joined u' = Some now ∧ User.last_login u' = Some now ∧
         User.modified_date u' = Some now ∧ User.created_date u' = Some now
     | Some _ =>
         User.date_joined u' = User.date_joined u ∧
         User.last_login u' = User.last_login u ∧
         User.modified_date u' = User.modified_date u ∧
         User.created_date u' = Some now
     end) ∧
  (∀ (first_name last_name : string) (username email password : option string)
     (now1 now2 : Z) (st st2 : Store) (su : User.t),
     UserManager.create_superuser first_name last_name username email password
       now1 now2 st = (inr su, st2) →
     ∃ k base st1,
       UserManager.create_user first_name last_name username
         (Some (normalize_email email)) password now1 st = (inr base, st1) ∧
       users st1 !! k = Some base ∧ users st2 !! k = Some su ∧
       User.date_joined base = Some now1 ∧ User.last_login base = Some now1 ∧
       User.modified_date base = Some now1 ∧ User.created_date base = Some now1 ∧
       User.date_joined su = Some now1 ∧ User.last_login su = Some now1 ∧
       User.modified_date su = Some now1 ∧ User.created_date su = Some now2).
Proof.
  split.
  - intros now u u' st st' Hsave.
    destruct (User_save_inr _ _ _ _ _ Hsave) as (k & Hpk & -> & _ & Hcase).
    split. { exists k. split; [exact Hpk|]. apply lookup_insert_eq. }
    destruct (User.pk u ≫= (λ j, users st !! j)).
    + destruct Hcase as (_ & _ & ->). repeat split.
    + destruct Hcase as (_ & _ & ->). repeat split.
  - intros fn ln un em pw now1 now2 st st2 su Hrun.
    destruct (create_superuser_inr _ _ _ _ _ _ _ _ _ _ Hrun)
      as (k & base & st1 & Hbase & Hpk & Hk & Hst1 & Hsu & Hst2).
    exists k, base, st1. split; [exact Hbase|].
    split. { rewrite Hst1. apply lookup_insert_eq. }
    split. { rewrite Hst2. apply lookup_insert_eq. }
    destruct (create_user_inr _ _ _ _ _ _ _ _ _ Hbase)
      as (_ & _ & k' & _ & Hb & _).
    rewrite Hsu, Hb. repeat split.
Qed.

Lemma timestamps_set_on_insert_or_on_every_save_witness :
  ∃ k base st1,
    UserManager.create_user "Root" "Admin" (Some "root")
      (Some (normalize_email (Some "Root@Example.COM"))) (Some "pw") 10 sample_store =
      (inr base, st1) ∧
    users st1 !! k = Some base ∧ users store_with_root !! k = Some root ∧
    User.date_joined base = Some 10%Z ∧ User.last_login base = Some 10%Z ∧
    User.modified_date base = Some 10%Z ∧ User.created_date base = Some 10%Z ∧
    User.date_joined root = Some 10%Z ∧ User.last_login root = Some 10%Z ∧
    User.modified_date root = Some 10%Z ∧ User.created_date root = Some 20%Z.
Proof.
  apply (proj2 (timestamps_set_on_insert_or_on_every_save (H := Ascii_env.framework))
           "Root" "Admin" (Some "root") (Some "Root@Example.COM") (Some "pw")
           10%Z 20%Z sample_store store_with_root root).
  vm_compute. reflexivity.
Defined.

(** A re-save of [alice] at a later instant moves [created_date] only. *)
Example resave_alice :
  User_save 99 alice sample_store
  = (inr (User.set_timestamps (Some 5%Z) (Some 5%Z) (Some 5%Z) (Some 99%Z) alice),
     mkStore {[0 := User.set_timestamps (Some 5%Z) (Some 5%Z) (Some 5%Z) (Some 99%Z) alice]}
       ∅ [INSERT_user 0; UPDATE_user 0]).
Proof. vm_compute. reflexivity. Qed.

(** ** C7: cascade delete and the one-to-one reference *)

(** C7.  Deleting a User whose instance carries the key [k] succeeds; it
    removes the row [k] and, with it, exactly the profiles that name [k] as
    their owner, keeping every other User and profile.  When no profile
    names [k] the profiles are left as they were and the only write is the
    delete of the User.  In every store this core can produce a User is the
    owner of at most one profile, and the owner a profile names is a
    persisted User. *)
Theorem delete_user_cascades_to_profile `{Framework} :
  (∀ (u : User.t) (k : nat) (st : Store),
     User.pk u = Some k →
     ∃ st',
       User_delete u st = (inr (), st') ∧
       users st' !! k = None ∧
       (∀ j, j ≠ k → users st' !! j = users st !! j) ∧
       (∀ j p, profiles st' !! j = Some p ↔
               profiles st !! j = Some p ∧ UserProfile.user p ≠ Some k) ∧
       ((∀ j p, profiles st !! j = Some p → UserProfile.user p ≠ Some k) →
        st' = mkStore (delete k (users st)) (profiles st)
                (writes st ++ [DELETE_user k]))) ∧
  (∀ st : Store, reachable st → profiles_one_to_one st ∧ profiles_owned st).
Proof.
  split.
  - intros u k st Hpk. eexists. split.
    { rewrite User_delete_run, Hpk. reflexivity. }
    cbn [users profiles writes].
    split; [apply lookup_delete_eq|].
    split; [intros j Hj; apply lookup_delete_ne; congruence|].
    split; [intros j p; apply not_owned_by_lookup|].
    intros Hnone.
    assert (Hkeep : not_owned_by k (profiles st) = profiles st).
    { unfold not_owned_by. apply map_filter_id. intros j p Hj. exact (Hnone j p Hj). }
    assert (Hgone : owned_by k (profiles st) = ∅).
    { apply map_eq. intros j. rewrite lookup_empty.
      destruct (owned_by k (profiles st) !! j) as [p|] eqn:Hj; [|reflexivity].
      apply owned_by_lookup in Hj as [Hj Ho]. destruct (Hnone j p Hj Ho). }
    rewrite Hkeep, Hgone, map_to_list_empty. reflexivity.
  - intros st Hreach. destruct (reachable_consistent st Hreach) as (_ & Hone & Hown).
    split; assumption.
Qed.

Lemma delete_user_cascades_to_profile_witness :
  ∃ st',
    User_delete alice store_with_profiles = (inr (), st') ∧
    users st' !! 0 = None ∧
    (∀ j, j ≠ 0 → users st' !! j = users store_with_profiles !! j) ∧
    (∀ j p, profiles st' !! j = Some p ↔
            profiles store_with_profiles !! j = Some p ∧ UserProfile.user p ≠ Some 0) ∧
    ((∀ j p, profiles store_with_profiles !! j = Some p → UserProfile.user p ≠ Some 0) →
     st' = mkStore (delete 0 (users store_with_profiles)) (profiles store_with_profiles)
             (writes store_with_profiles ++ [DELETE_user 0])).
Proof.
  apply (proj1 (delete_user_cascades_to_profile (H := Ascii_env.framework))
           alice 0 store_with_profiles).
  reflexivity.
Defined.

(** Deleting [alice] removes her profile and keeps the ownerless one;
    deleting her where she has no profile only removes her row. *)
Example delete_alice_with_profile :
  User_delete alice store_with_profiles
  = (inr (), mkStore ∅ {[1 := stray_profile]}
               [INSERT_user 0; INSERT_profile 0; INSERT_profile 1;
                DELETE_profile 0; DELETE_user 0]).
Proof. vm_compute. reflexivity. Qed.

Example delete_alice_without_profile :
  User_delete alice sample_store
  = (inr (), mkStore ∅ ∅ [INSERT_user 0; DELETE_user 0]).
Proof. vm_compute. reflexivity. Qed.

(** A second profile for the same owner is refused. *)
Example second_profile_refused :
  UserProfile_save 9 (UserProfile.blank (Some 0)) store_with_profiles
  = (inl IntegrityError, store_with_profiles).
Proof. vm_compute. reflexivity. Qed.

(** ** C8: the credential *)

(** C8.  The password reaches the store only as the hasher's output: the
    User that [create_user] returns and stores carries
    [make_password password] in its credential column, and the whole outcome
    of the call (result and store) is the same for two passwords with the
    same hasher output, so no other trace of the raw password is kept.
    When the password is omitted and the hasher marks the credential it
    makes for a missing password as unusable, the stored credential is not
    usable. *)
Theorem credential_is_hasher_output `{Framework}
    (first_name last_name : string) (username email : option string)
    (now : Z) (st : Store) :
  (∀ (password : option string) (u : User.t) (st' : Store),
     UserManager.create_user first_name last_name username email password now st
       = (inr u, st') →
     User.password u = make_password password ∧
     ∃ k, users st' !! k = Some u ∧ users st !! k = None) ∧
  (∀ password1 password2 : option string,
     make_password password1 = make_password password2 →
     UserManager.create_user first_name last_name username email password1 now st =
     UserManager.create_user first_name last_name username email password2 now st) ∧
  (hasher_marks_unusable →
   ∀ (u : User.t) (st' : Store),
     UserManager.create_user first_name last_name username email None now st
       = (inr u, st') →
     is_password_usable (User.password u) = false).
Proof.
  split; [|split].
  - intros pw u st' Hrun.
    destruct (create_user_inr _ _ _ _ _ _ _ _ _ Hrun)
      as (_ & _ & k & Hk & Hu & _ & Hst').
    split; [rewrite Hu; reflexivity|].
    exists k. split; [|exact Hk]. rewrite Hst'. apply lookup_insert_eq.
  - intros pw1 pw2 Hpw.
    destruct (create_user_cases first_name last_name username email pw1 now st)
      as [[Hem ->]|[(Hem & Hun & ->)|(Hem & Hun & ->)]];
    destruct (create_user_cases first_name last_name username email pw2 now st)
      as [[Hem' ->]|[(Hem' & Hun' & ->)|(Hem' & Hun' & ->)]];
    try congruence.
    unfold fresh_user, User.set_password. rewrite Hpw. reflexivity.
  - intros Hmark u st' Hrun.
    destruct (create_user_inr _ _ _ _ _ _ _ _ _ Hrun)
      as (_ & _ & k & _ & Hu & _).
    rewrite Hu. exact Hmark.
Qed.

Lemma credential_is_hasher_output_witness :
  is_password_usable
    (User.password
       (User.mk (Some 1) "!" false "Carol" "Singer" "carol" "carol@example.com"
          "" None (Some 30%Z) (Some 30%Z) (Some 30%Z) (Some 30%Z)
          false false false false)) = false.
Proof.
  apply (proj2 (proj2 (credential_is_hasher_output (H := Ascii_env.framework)
                         "Carol" "Singer" (Some "carol") (Some "carol@Example.com")
                         30%Z sample_store))
           eq_refl _
           (mkStore (<[1 := User.mk (Some 1) "!" false "Carol" "Singer" "carol"
                             "carol@example.com" "" None (Some 30%Z) (Some 30%Z)
                             (Some 30%Z) (Some 30%Z) false false false false]>
                       {[0 := alice]}) ∅ [INSERT_user 0; INSERT_user 1])).
  vm_compute. reflexivity.
Defined.

(** ** C9: what superuser elevation changes *)

(** C9 (as amended).  In a successful [create_superuser], the User returned
    by the inner [create_user] has the five flags [is_admin], [is_active],
    [is_superadmin], [is_staff] and [is_superuser] false, and the User
    returned and stored at the end has the five true.  Every other column is
    as [create_user] left it (key, credential, names, username, email, phone
    number, role, [date_joined], [last_login]), [created_date] and
    [modified_date] aside: of these two, whose declarations on lines 95-96
    disagree with their own comments, nothing is said here. *)
Theorem elevation_sets_five_flags `{Framework}
    (first_name last_name : string) (username email password : option string)
    (now1 now2 : Z) (st st1 st2 : Store) (base su : User.t) :
  UserManager.create_user first_name last_name username
    (Some (normalize_email email)) password now1 st = (inr base, st1) →
  UserManager.create_superuser first_name last_name username email password
    now1 now2 st = (inr su, st2) →
  (User.is_admin base = false ∧ User.is_active base = false ∧
   User.is_superadmin base = false ∧ User.is_staff base = false ∧
   User.is_superuser base = false) ∧
  (User.is_admin su = true ∧ User.is_active su = true ∧
   User.is_superadmin su = true ∧ User.is_staff su = true ∧
   User.is_superuser su = true) ∧
  (User.pk su = User.pk base ∧ User.password su = User.password base ∧
   User.first_name su = User.first_name base ∧
   User.last_name su = User.last_name base ∧
   User.username su = User.username base ∧ User.email su = User.email base ∧
   User.phone_number su = User.phone_number base ∧ User.role su = User.role base ∧
   User.date_joined su = User.date_joined base ∧
   User.last_login su = User.last_login base) ∧
  (∃ k, User.pk su = Some k ∧ users st2 !! k = Some su).
Proof.
  intros Hbase Hrun.
  destruct (create_superuser_inr _ _ _ _ _ _ _ _ _ _ Hrun)
    as (k & base' & st1' & Hbase' & Hpk & Hk & Hst1 & Hsu & Hst2).
  rewrite Hbase in Hbase'. injection Hbase' as <- <-.
  destruct (create_user_inr _ _ _ _ _ _ _ _ _ Hbase) as (_ & _ & k' & _ & Hb & _).
  split; [rewrite Hb; repeat split|].
  split; [rewrite Hsu; repeat split|].
  split; [rewrite Hsu; repeat split|].
  exists k. split.
  - rewrite Hsu. exact Hpk.
  - rewrite Hst2. apply lookup_insert_eq.
Qed.

Lemma elevation_sets_five_flags_witness :
  (User.is_admin root_base = false ∧ User.is_active root_base = false ∧
   User.is_superadmin root_base = false ∧ User.is_staff root_base = false ∧
   User.is_superuser root_base = false) ∧
  (User.is_admin root = true ∧ User.is_active root = true ∧
   User.is_superadmin root = true ∧ User.is_staff root = true ∧
   User.is_superuser root = true) ∧
  (User.pk root = User.pk root_base ∧ User.password root = User.password root_base ∧
   User.first_name root = User.first_name root_base ∧
   User.last_name root = User.last_name root_base ∧
   User.username root = User.username root_base ∧
   User.email root = User.email root_base ∧
   User.phone_number root = User.phone_number root_base ∧
   User.role root = User.role root_base ∧
   User.date_joined root = User.date_joined root_base ∧
   User.last_login root = User.last_login root_base) ∧
  (∃ k, User.pk root = Some k ∧ users store_with_root !! k = Some root).
Proof.
  apply (elevation_sets_five_flags (H := Ascii_env.framework)
           "Root" "Admin" (Some "root") (Some "Root@Example.COM") (Some "pw")
           10%Z 20%Z sample_store
           store_with_root_base
           store_with_root root_base root).
  - vm_compute. reflexivity.
  - vm_compute. reflexivity.
Defined.

(** C9 as stated fails: the User that [create_superuser] returns is not the
    User of [create_user] with the five flags set and nothing else changed,
    since the re-save also rewrites [created_date], which line 96 declares
    [auto_now=True] against its own comment. *)
Lemma elevation_changes_more_than_flags :
  ¬ (∀ (F : Framework) (first_name last_name : string)
       (username email password : option string) (now1 now2 : Z)
       (st st1 st2 : Store) (base su : User.t),
       UserManager.create_user first_name last_name username
         (Some (normalize_email email)) password now1 st = (inr base, st1) →
       UserManager.create_superuser first_name last_name username email password
         now1 now2 st = (inr su, st2) →
       su = elevate base).
Proof.
  intros Hclaim.
  specialize (Hclaim Ascii_env.framework "Root" "Admin" (Some "root")
                (Some "Root@Example.COM") (Some "pw") 10%Z 20%Z sample_store
                store_with_root_base
                store_with_root root_base root).
  assert (Hneq : User.created_date root ≠ User.created_date (elevate root_base))
    by (vm_compute; discriminate).
  apply Hneq. rewrite <- Hclaim; [reflexivity| |]; vm_compute; reflexivity.
Qed.

(** ** C10: the string representation of a profile *)

(** C10.  A profile without an owner can be saved in any store: the
    reference is declared [null=True].  On a profile without an owner
    [__str__] raises ([AttributeError], from [None.email]) and touches
    nothing; on a profile whose owner is the stored User [u] it returns the
    email of [u].  In every store this core can produce, each stored profile
    that names an owner has that owner stored, so [__str__] returns the
    owner's email. *)
Theorem profile_str_needs_owner `{Framework} :
  (∀ (now : Z) (st : Store),
     ∃ k p st',
       UserProfile_save now (UserProfile.blank None) st = (inr p, st') ∧
       profiles st !! k = None ∧ profiles st' !! k = Some p ∧
       UserProfile.user p = None) ∧
  (∀ (p : UserProfile.t) (st : Store),
     UserProfile.user p = None →
     UserProfile___str__ p st = (inl AttributeError, st)) ∧
  (∀ (p : UserProfile.t) (k : nat) (u : User.t) (st : Store),
     UserProfile.user p = Some k → users st !! k = Some u →
     UserProfile___str__ p st = (inr (User.email u), st)) ∧
  (∀ (st : Store) (j k : nat) (p : UserProfile.t),
     reachable st → profiles st !! j = Some p → UserProfile.user p = Some k →
     ∃ u, users st !! k = Some u ∧
          UserProfile___str__ p st = (inr (User.email u), st)).
Proof.
  assert (Hstr : ∀ p k u st, UserProfile.user p = Some k → users st !! k = Some u →
                   UserProfile___str__ p st = (inr (User.email u), st)).
  { intros p k u st Hp Hk. unfold UserProfile___str__. rewrite bind_get, Hp, Hk.
    reflexivity. }
  split; [|split; [|split]].
  - intros now st.
    exists (new_key (profiles st)). eexists. eexists.
    split; [|split; [apply new_key_unused|split]].
    + unfold UserProfile_save. rewrite bind_get. cbn [UserProfile.pk UserProfile.blank].
      destruct (Profile_write_cases true (new_key (profiles st))
                  (Profile_pre_save true now (UserProfile.blank None)) st)
        as [Hbad|(_ & _ & ->)]; [|reflexivity].
      exfalso. revert Hbad. unfold Profile_write. rewrite bind_get.
      destruct (decide _) as [_|Hno]; [|destruct Hno; reflexivity].
      destruct (decide _) as [(j & r & _ & _ & [x Hx] & _)|_]; discriminate.
    + cbn. apply lookup_insert_eq.
    + reflexivity.
  - intros p st Hp. unfold UserProfile___str__. rewrite bind_get, Hp. reflexivity.
  - exact Hstr.
  - intros st j k p Hreach Hj Hp.
    destruct (reachable_consistent st Hreach) as (_ & _ & Hown).
    destruct (Hown j p k Hj Hp) as [u Hu].
    exists u. split; [exact Hu|]. apply (Hstr p k u st Hp Hu).
Qed.

Lemma profile_str_needs_owner_witness :
  UserProfile___str__ stray_profile store_with_profiles
    = (inl AttributeError, store_with_profiles) ∧
  UserProfile___str__ alice_profile store_with_profiles
    = (inr "alice@example.com", store_with_profiles).
Proof.
  destruct (profile_str_needs_owner (H := Ascii_env.framework))
    as (_ & Hnone & Hsome & _).
  split.
  - apply Hnone. reflexivity.
  - apply (Hsome alice_profile 0 alice store_with_profiles); reflexivity.
Defined.

(** * Further properties of the code *)

(** ** Outcomes of the two factory methods *)

Lemma violation_iff_not_available k u rows :
  rows !! k = None →
  User_unique_violation (Some k) u rows ↔
  ¬ available (User.username u) (User.email u) rows.
Proof.
  intros Hk. split.
  - intros Hv Hav. exact (available_no_violation _ _ _ Hav Hv).
  - intros Hnot.
    destruct (decide (User_unique_violation (Some k) u rows)) as [Hv|Hno]; [exact Hv|].
    exfalso. apply Hnot. intros j r Hj. cbn.
    split; intros Heq; apply Hno; exists j, r; (split; [exact Hj|]);
      (split; [intros [= ->]; congruence|]).
    + left. split; [reflexivity|exact Heq].
    + right. split; [reflexivity|exact Heq].
Qed.

Lemma create_user_inl `{Framework} fn ln un em pw now st e st' :
  UserManager.create_user fn ln un em pw now st = (inl e, st') → st' = st.
Proof.
  destruct (create_user_cases fn ln un em pw now st)
    as [[_ ->]|[(_ & _ & ->)|(_ & _ & ->)]]; try (intros [= _ <-]; reflexivity).
  destruct (User_insert_cases (new_key (users st))
              (User_pre_save true now
                 (fresh_user fn ln (str_of un) (normalize_email em) pw)) st)
    as [[_ ->]|[_ ->]]; [intros [= _ <-]; reflexivity|discriminate].
Qed.

(** Once the inner [create_user] has inserted the base User, the re-save of
    [create_superuser] cannot be refused. *)
Lemma create_superuser_of_base `{Framework} fn ln un em pw now1 now2 st base st1 :
  UserManager.create_user fn ln un (Some (normalize_email em)) pw now1 st =
    (inr base, st1) →
  ∃ k, User.pk base = Some k ∧ users st !! k = None ∧
       UserManager.create_superuser fn ln un em pw now1 now2 st =
         (inr (User_pre_save false now2 (elevate base)),
          mkStore (<[k := User_pre_save false now2 (elevate base)]> (users st))
            (profiles st) (writes st ++ [INSERT_user k; UPDATE_user k])).
Proof.
  intros Hbase.
  destruct (create_user_inr _ _ _ _ _ _ _ _ _ Hbase)
    as (_ & _ & k & Hk & Hb & Hno & Hst1).
  assert (Hpk : User.pk base = Some k) by (rewrite Hb; reflexivity).
  exists k. split; [exact Hpk|]. split; [exact Hk|].
  rewrite create_superuser_unfold, (bind_inr _ _ _ _ _ Hbase).
  unfold User_save. rewrite bind_get.
  change (User.pk (elevate base)) with (User.pk base). rewrite Hpk, Hst1.
  cbn [users]. rewrite lookup_insert_eq.
  rewrite User_update_ok.
  - cbn [users profiles writes]. rewrite insert_insert_eq, <- app_assoc. reflexivity.
  - cbn [users]. apply no_violation_after_insert; [exact Hno|reflexivity|reflexivity].
Qed.

(** [create_user] succeeds exactly when both checks pass and nothing stored
    holds the username or the normalized email. *)
Lemma create_user_succeeded_iff `{Framework} fn ln un em pw now st :
  succeeded (UserManager.create_user fn ln un em pw now st) = true ↔
  truthy em = true ∧ truthy un = true ∧
  available (str_of un) (normalize_email em) (users st).
Proof.
  pose proof (violation_iff_not_available (new_key (users st))
                (User_pre_save true now
                   (fresh_user fn ln (str_of un) (normalize_email em) pw))
                (users st) (new_key_unused _)) as Hiff.
  cbn [User.username User.email User_pre_save User.set_timestamps fresh_user
       User.set_password User.set_password_column User.init] in Hiff.
  destruct (create_user_cases fn ln un em pw now st)
    as [[Hem ->]|[(Hem & Hun & ->)|(Hem & Hun & ->)]].
  - split; [discriminate|]. intros (Hx & _). congruence.
  - split; [discriminate|]. intros (_ & Hx & _). congruence.
  - destruct (User_insert_cases (new_key (users st))
               (User_pre_save true now
                  (fresh_user fn ln (str_of un) (normalize_email em) pw)) st)
      as [[Hv ->]|[Hno ->]].
    + apply Hiff in Hv. split; [discriminate|]. intros (_ & _ & Hav). contradiction.
    + split; [|reflexivity]. intros _. split; [exact Hem|]. split; [exact Hun|].
      destruct (decide (available (str_of un) (normalize_email em) (users st)))
        as [Hav|Hnav]; [exact Hav|].
      apply Hiff in Hnav. contradiction.
Qed.

(** X1.  The outcome of [create_user] is decided by three tests, in this
    order: a missing or empty email gives the email error, whatever the
    username; otherwise a missing or empty username gives the username
    error; otherwise a stored User holding the username or the normalized
    email gives the constraint violation.  The call succeeds exactly when
    all three tests pass, and each failure leaves the store as it was. *)
Theorem create_user_outcome `{Framework}
    (first_name last_name : string) (username email password : option string)
    (now : Z) (st : Store) :
  (succeeded (UserManager.create_user first_name last_name username email
                password now st) = true ↔
   truthy email = true ∧ truthy username = true ∧
   available (str_of username) (normalize_email email) (users st)) ∧
  (truthy email = false →
   UserManager.create_user first_name last_name username email password now st =
     (inl (ValueError "User must have an email address"), st)) ∧
  (truthy email = true → truthy username = false →
   UserManager.create_user first_name last_name username email password now st =
     (inl (ValueError "User must have a username"), st)) ∧
  (truthy email = true → truthy username = true →
   ¬ available (str_of username) (normalize_email email) (users st) →
   UserManager.create_user first_name last_name username email password now st =
     (inl IntegrityError, st)).
Proof.
  split; [apply create_user_succeeded_iff|].
  pose proof (create_user_succeeded_iff first_name last_name username email
                password now st) as Hiff.
  destruct (create_user_cases first_name last_name username email password now st)
    as [[Hem ->]|[(Hem & Hun & ->)|(Hem & Hun & Hrun)]].
  - split; [|split]; congruence.
  - split; [|split]; congruence.
  - split; [|split]; try congruence.
    intros _ _ Hnav. rewrite Hrun in Hiff |- *.
    destruct (User_insert_cases (new_key (users st))
               (User_pre_save true now
                  (fresh_user first_name last_name (str_of username)
                     (normalize_email email) password)) st)
      as [[_ Hins]|[_ Hins]]; [exact Hins|].
    rewrite Hins in Hiff. exfalso. apply Hnav. apply Hiff. reflexivity.
Qed.

(** Both fields missing: the email error is the one reported. *)
Example create_user_email_error_first :
  UserManager.create_user (H := Ascii_env.framework) "Bob" "Builder" (Some "")
    None (Some "pw") 10 sample_store
  = (inl (ValueError "User must have an email address"), sample_store).
Proof. vm_compute. reflexivity. Qed.

(** X2.  [create_superuser] is all or nothing.  It succeeds exactly when its
    inner [create_user] call (on the normalized email) does; when it fails
    it reports that call's failure and leaves the store as it was; when it
    succeeds the store has gained one row, written twice, whose five flags
    are true.  The re-save is never refused, so no User is left persisted
    with the default flags. *)
Theorem create_superuser_all_or_nothing `{Framework}
    (first_name last_name : string) (username email password : option string)
    (now1 now2 : Z) (st : Store) :
  succeeded (UserManager.create_superuser first_name last_name username email
               password now1 now2 st) =
  succeeded (UserManager.create_user first_name last_name username
               (Some (normalize_email email)) password now1 st) ∧
  (∀ e st', UserManager.create_superuser first_name last_name username email
              password now1 now2 st = (inl e, st') →
     st' = st ∧
     UserManager.create_user first_name last_name username
       (Some (normalize_email email)) password now1 st = (inl e, st)) ∧
  (∀ su st', UserManager.create_superuser first_name last_name username email
               password now1 now2 st = (inr su, st') →
     ∃ k, users st !! k = None ∧ User.pk su = Some k ∧
          st' = mkStore (<[k := su]> (users st)) (profiles st)
                  (writes st ++ [INSERT_user k; UPDATE_user k]) ∧
          User.is_admin su = true ∧ User.is_active su = true ∧
          User.is_superadmin su = true ∧ User.is_staff su = true ∧
          User.is_superuser su = true).
Proof.
  destruct (UserManager.create_user first_name last_name username
              (Some (normalize_email email)) password now1 st)
    as [[e|base] st1] eqn:Hbase.
  - pose proof (create_user_inl _ _ _ _ _ _ _ _ _ Hbase) as ->.
    assert (Hrun : UserManager.create_superuser first_name last_name username
                     email password now1 now2 st = (inl e, st)).
    { rewrite create_superuser_unfold. apply (bind_inl _ _ _ _ _ Hbase). }
    rewrite Hrun. split; [reflexivity|]. split.
    + intros e' st' [= <- <-]. split; reflexivity.
    + intros su st' [=].
  - destruct (create_superuser_of_base _ _ _ _ _ _ now2 _ _ _ Hbase)
      as (k & Hpk & Hk & Hrun).
    rewrite Hrun. split; [reflexivity|]. split.
    + intros e st' [=].
    + intros su st' [= <- <-]. exists k. split; [exact Hk|].
      split; [exact Hpk|]. repeat split.
Qed.

(** A rejected [create_superuser] on the sample store: nothing is kept. *)
Example create_superuser_taken_email :
  UserManager.create_superuser (H := Ascii_env.framework) "Al" "Ice" (Some "al")
    (Some "alice@EXAMPLE.com") None 7 8 sample_store
  = (inl IntegrityError, sample_store).
Proof. vm_compute. reflexivity. Qed.

(** X3.  Neither factory method touches what is already stored: whatever the
    outcome, every User row of the store before the call is still there
    unchanged, the profiles are the same, and the writes issued are none or
    one insert ([create_user]), none or an insert and an update of one key
    ([create_superuser]). *)
Theorem creation_keeps_existing_rows `{Framework}
    (first_name last_name : string) (username email password : option string)
    (now1 now2 : Z) (st : Store) :
  (∀ j r, users st !! j = Some r →
     users (UserManager.create_user first_name last_name username email
              password now1 st).2 !! j = Some r ∧
     users (UserManager.create_superuser first_name last_name username email
              password now1 now2 st).2 !! j = Some r) ∧
  profiles (UserManager.create_user first_name last_name username email
              password now1 st).2 = profiles st ∧
  profiles (UserManager.create_superuser first_name last_name username email
              password now1 now2 st).2 = profiles st ∧
  (writes (UserManager.create_user first_name last_name username email
             password now1 st).2 = writes st ∨
   ∃ k, writes (UserManager.create_user first_name last_name username email
                  password now1 st).2 = (writes st ++ [INSERT_user k])%list) ∧
  (writes (UserManager.create_superuser first_name last_name username email
             password now1 now2 st).2 = writes st ∨
   ∃ k, writes (UserManager.create_superuser first_name last_name username email
                  password now1 now2 st).2
        = (writes st ++ [INSERT_user k; UPDATE_user k])%list).
Proof.
  assert (Hcu : ∀ em,
    (UserManager.create_user first_name last_name username em password now1 st).2 = st ∨
    ∃ k u, users st !! k = None ∧
      (UserManager.create_user first_name last_name username em password now1 st).2
      = mkStore (<[k := u]> (users st)) (profiles st) (writes st ++ [INSERT_user k])).
  { intros em.
    destruct (UserManager.create_user first_name last_name username em password now1 st)
      as [[e|u] st1] eqn:Hrun.
    - left. exact (create_user_inl _ _ _ _ _ _ _ _ _ Hrun).
    - right. destruct (create_user_inr _ _ _ _ _ _ _ _ _ Hrun)
        as (_ & _ & k & Hk & _ & _ & ->). exists k, u. split; [exact Hk|reflexivity]. }
  assert (Hcs :
    (UserManager.create_superuser first_name last_name username email password
       now1 now2 st).2 = st ∨
    ∃ k u, users st !! k = None ∧
      (UserManager.create_superuser first_name last_name username email password
         now1 now2 st).2
      = mkStore (<[k := u]> (users st)) (profiles st)
          (writes st ++ [INSERT_user k; UPDATE_user k])).
  { destruct (UserManager.create_user first_name last_name username
                (Some (normalize_email email)) password now1 st)
      as [[e|base] st1] eqn:Hbase.
    - left. pose proof (create_user_inl _ _ _ _ _ _ _ _ _ Hbase) as ->.
      rewrite create_superuser_unfold, (bind_inl _ _ _ _ _ Hbase). reflexivity.
    - right. destruct (create_superuser_of_base _ _ _ _ _ _ now2 _ _ _ Hbase)
        as (k & _ & Hk & ->). eexists k, _. split; [exact Hk|reflexivity]. }
  specialize (Hcu email).
  split; [|split; [|split; [|split]]].
  - intros j r Hj. split.
    + destruct Hcu as [->|(k & u & Hk & ->)]; [exact Hj|].
      cbn. rewrite lookup_insert_ne by congruence. exact Hj.
    + destruct Hcs as [->|(k & u & Hk & ->)]; [exact Hj|].
      cbn. rewrite lookup_insert_ne by congruence. exact Hj.
  - destruct Hcu as [->|(k & u & _ & ->)]; reflexivity.
  - destruct Hcs as [->|(k & u & _ & ->)]; reflexivity.
  - destruct Hcu as [->|(k & u & _ & ->)]; [left; reflexivity|right; exists k; reflexivity].
  - destruct Hcs as [->|(k & u & _ & ->)]; [left; reflexivity|right; exists k; reflexivity].
Qed.

(** ** Permissions of the Users the manager creates *)

(** X4.  A User returned by [create_user] passes neither permission check,
    whatever is asked; a User returned by [create_superuser] passes both.
    The same holds of the rows the two calls leave in the store. *)
Theorem permissions_after_creation `{Framework}
    (first_name last_name : string) (username email password : option string)
    (now1 now2 : Z) (st : Store) :
  (∀ u st', UserManager.create_user first_name last_name username email
              password now1 st = (inr u, st') →
     (∀ perms obj app_label,
        User.has_perms u perms obj = false ∧
        User.has_module_perms u app_label = false) ∧
     ∃ k, users st' !! k = Some u) ∧
  (∀ su st', UserManager.create_superuser first_name last_name username email
               password now1 now2 st = (inr su, st') →
     (∀ perms obj app_label,
        User.has_perms su perms obj = true ∧
        User.has_module_perms su app_label = true) ∧
     ∃ k, users st' !! k = Some su).
Proof.
  split.
  - intros u st' Hrun.
    destruct (create_user_inr _ _ _ _ _ _ _ _ _ Hrun)
      as (_ & _ & k & _ & Hu & _ & Hst').
    split.
    + intros perms obj app_label. rewrite Hu. split; reflexivity.
    + exists k. rewrite Hst'. apply lookup_insert_eq.
  - intros su st' Hrun.
    destruct (create_superuser_inr _ _ _ _ _ _ _ _ _ _ Hrun)
      as (k & base & st1 & _ & _ & _ & _ & Hsu & Hst').
    split.
    + intros perms obj app_label. rewrite Hsu. split; reflexivity.
    + exists k. rewrite Hst'. apply lookup_insert_eq.
Qed.

Lemma permissions_after_creation_witness :
  (∀ perms obj app_label,
     User.has_perms root perms obj = true ∧
     User.has_module_perms root app_label = true) ∧
  ∃ k, users store_with_root !! k = Some root.
Proof.
  apply (proj2 (permissions_after_creation (H := Ascii_env.framework)
                  "Root" "Admin" (Some "root") (Some "Root@Example.COM") (Some "pw")
                  10%Z 20%Z sample_store) root store_with_root).
  vm_compute. reflexivity.
Defined.

(** X5.  The two permission checks always give the same answer, and
    granting any one of [is_admin], [is_superadmin], [is_staff] makes both
    true whatever the other columns hold. *)
Theorem permission_checks_agree (u : User.t) (perms : list string)
    (obj : option nat) (app_label : string) :
  User.has_perms u perms obj = User.has_module_perms u app_label ∧
  User.has_perms (User.set_is_admin true u) perms obj = true ∧
  User.has_perms (User.set_is_superadmin true u) perms obj = true ∧
  User.has_perms (User.set_is_staff true u) perms obj = true ∧
  User.has_module_perms (User.set_is_admin true u) app_label = true ∧
  User.has_module_perms (User.set_is_superadmin true u) app_label = true ∧
  User.has_module_perms (User.set_is_staff true u) app_label = true.
Proof.
  unfold User.has_perms, User.has_module_perms. cbn.
  destruct (User.is_admin u), (User.is_superadmin u), (User.is_staff u);
    repeat split.
Qed.

(** ** String representations *)

(** X6.  After a successful [create_user] in a store this core can produce,
    the returned User prints as the normalized email, a profile can be saved
    for that User, and the profile prints as the same text. *)
Theorem new_user_and_profile_print_email `{Framework}
    (first_name last_name : string) (username email password : option string)
    (now now' : Z) (st st1 : Store) (u : User.t) :
  reachable st →
  UserManager.create_user first_name last_name username email password now st
    = (inr u, st1) →
  User.__str__ u = normalize_email email ∧
  ∃ p st2,
    UserProfile_save now' (UserProfile.blank (User.pk u)) st1 = (inr p, st2) ∧
    UserProfile.user p = User.pk u ∧
    UserProfile___str__ p st2 = (inr (User.__str__ u), st2).
Proof.
  intros Hreach Hrun.
  destruct (reachable_consistent st Hreach) as (_ & _ & Hown).
  destruct (create_user_inr _ _ _ _ _ _ _ _ _ Hrun)
    as (_ & _ & k & Hk & Hu & _ & Hst1).
  assert (Hpk : User.pk u = Some k) by (rewrite Hu; reflexivity).
  split; [rewrite Hu; reflexivity|].
  unfold UserProfile_save. rewrite bind_get, Hpk.
  cbn [UserProfile.pk UserProfile.blank].
  destruct (Profile_write_cases true (new_key (profiles st1))
              (Profile_pre_save true now' (UserProfile.blank (Some k))) st1)
    as [Hbad|(_ & _ & Hok)].
  - exfalso. revert Hbad. unfold Profile_write. rewrite bind_get.
    destruct (decide _) as [_|Hno].
    + destruct (decide _) as [(j & r & Hj & _ & _ & Hr)|_]; [|discriminate].
      intros _. rewrite Hst1 in Hj. cbn in Hj, Hr.
      destruct (Hown j r k Hj Hr) as [x Hx]. congruence.
    + intros _. apply Hno. unfold Profile_reference_ok. cbn.
      rewrite Hst1. cbn. rewrite lookup_insert_eq. eauto.
  - eexists _, _. split; [exact Hok|]. split; [reflexivity|].
    unfold UserProfile___str__. rewrite bind_get. cbn.
    rewrite Hst1. cbn. rewrite lookup_insert_eq. reflexivity.
Qed.

Lemma new_user_and_profile_print_email_witness :
  User.__str__ root_base = "Root@example.com" ∧
  ∃ p st2,
    UserProfile_save 30 (UserProfile.blank (User.pk root_base)) store_with_root_base
      = (inr p, st2) ∧
    UserProfile.user p = User.pk root_base ∧
    UserProfile___str__ p st2 = (inr (User.__str__ root_base), st2).
Proof.
  apply (new_user_and_profile_print_email (H := Ascii_env.framework)
           "Root" "Admin" (Some "root") (Some "Root@Example.COM") (Some "pw")
           10%Z 30%Z sample_store store_with_root_base root_base
           sample_store_reachable).
  vm_compute. reflexivity.
Defined.

(** X7.  In a store this core can produce the string representation
    identifies what it prints: two stored Users that print alike are the
    same row, and two stored profiles whose [__str__] returns the same text
    are the same row. *)
Theorem str_identifies_rows `{Framework} (st : Store) :
  reachable st →
  (∀ k1 k2 u1 u2,
     users st !! k1 = Some u1 → users st !! k2 = Some u2 →
     User.__str__ u1 = User.__str__ u2 → k1 = k2) ∧
  (∀ j1 j2 p1 p2 text,
     profiles st !! j1 = Some p1 → profiles st !! j2 = Some p2 →
     UserProfile___str__ p1 st = (inr text, st) →
     UserProfile___str__ p2 st = (inr text, st) → j1 = j2).
Proof.
  intros Hreach.
  destruct (reachable_consistent st Hreach) as (Huniq & Hone & _).
  split.
  - intros k1 k2 u1 u2 Hk1 Hk2 Hstr.
    apply (Huniq _ _ _ _ Hk1 Hk2). left. exact Hstr.
  - assert (Hinv : ∀ p text, UserProfile___str__ p st = (inr text, st) →
              ∃ k u, UserProfile.user p = Some k ∧ users st !! k = Some u ∧
                     User.email u = text).
    { intros p text. unfold UserProfile___str__. rewrite bind_get.
      destruct (UserProfile.user p) as [k|]; [|discriminate].
      destruct (users st !! k) as [u|] eqn:Hk; [|discriminate].
      intros [= <-]. eauto. }
    intros j1 j2 p1 p2 text Hj1 Hj2 Hs1 Hs2.
    destruct (Hinv _ _ Hs1) as (k1 & u1 & Ho1 & Hk1 & He1).
    destruct (Hinv _ _ Hs2) as (k2 & u2 & Ho2 & Hk2 & He2).
    assert (k1 = k2) as ->.
    { apply (Huniq _ _ _ _ Hk1 Hk2). left. congruence. }
    exact (Hone _ _ _ _ _ Hj1 Hj2 Ho1 Ho2).
Qed.

Lemma str_identifies_rows_witness :
  (∀ k1 k2 u1 u2,
     users store_with_profiles !! k1 = Some u1 →
     users store_with_profiles !! k2 = Some u2 →
     User.__str__ u1 = User.__str__ u2 → k1 = k2) ∧
  (∀ j1 j2 p1 p2 text,
     profiles store_with_profiles !! j1 = Some p1 →
     profiles store_with_profiles !! j2 = Some p2 →
     UserProfile___str__ p1 store_with_profiles = (inr text, store_with_profiles) →
     UserProfile___str__ p2 store_with_profiles = (inr text, store_with_profiles) →
     j1 = j2).
Proof.
  exact (str_identifies_rows (H := Ascii_env.framework) store_with_profiles
           store_with_profiles_reachable).
Defined.

(** ** What the stored rows look like *)

Lemma made_by_create_user_inr `{Framework} fn ln un em pw now st u st' :
  UserManager.create_user fn ln un em pw now st = (inr u, st') →
  made_by_create_user u.
Proof.
  intros Hrun.
  destruct (create_user_inr _ _ _ _ _ _ _ _ _ Hrun) as (_ & _ & k & _ & Hu & _).
  unfold made_by_create_user. eauto 10.
Qed.

(** Every User row of a store this core can produce was written by the
    manager, and sits under the key it carries. *)
Lemma reachable_made_by_manager `{Framework} st :
  reachable st →
  ∀ k r, users st !! k = Some r → made_by_manager r ∧ User.pk r = Some k.
Proof.
  induction 1 as [|op st _ IH].
  - intros k r Hk. cbn in Hk. rewrite lookup_empty in Hk. discriminate.
  - destruct op as [fn ln un em pw now|fn ln un em pw now1 now2|u|p now]; cbn [exec].
    + destruct (UserManager.create_user fn ln un em pw now st) as [[e|u] st1] eqn:Hrun.
      * rewrite (create_user_inl _ _ _ _ _ _ _ _ _ Hrun). exact IH.
      * pose proof (made_by_create_user_inr _ _ _ _ _ _ _ _ _ Hrun) as Hmade.
        destruct (create_user_inr _ _ _ _ _ _ _ _ _ Hrun)
          as (_ & _ & k & _ & Hu & _ & ->).
        intros j r Hj. cbn in Hj.
        destruct (decide (k = j)) as [->|Hne].
        -- rewrite lookup_insert_eq in Hj. injection Hj as <-.
           split; [left; exact Hmade|rewrite Hu; reflexivity].
        -- rewrite lookup_insert_ne in Hj by exact Hne. exact (IH _ _ Hj).
    + destruct (UserManager.create_user fn ln un (Some (normalize_email em)) pw now1 st)
        as [[e|base] st1] eqn:Hbase.
      * pose proof (create_user_inl _ _ _ _ _ _ _ _ _ Hbase) as ->.
        rewrite create_superuser_unfold, (bind_inl _ _ _ _ _ Hbase). exact IH.
      * pose proof (made_by_create_user_inr _ _ _ _ _ _ _ _ _ Hbase) as Hmade.
        destruct (create_superuser_of_base _ _ _ _ _ _ now2 _ _ _ Hbase)
          as (k & Hpk & _ & ->).
        intros j r Hj. cbn in Hj.
        destruct (decide (k = j)) as [->|Hne].
        -- rewrite lookup_insert_eq in Hj. injection Hj as <-.
           split; [right; eauto|exact Hpk].
        -- rewrite lookup_insert_ne in Hj by exact Hne. exact (IH _ _ Hj).
    + rewrite User_delete_run. destruct (User.pk u) as [k|]; [|exact IH].
      intros j r Hj. cbn in Hj. apply lookup_delete_Some in Hj as [_ Hj].
      exact (IH _ _ Hj).
    + destruct (UserProfile_save_unfold now p st) as (i & k & q & ->).
      rewrite Profile_write_users. exact IH.
Qed.

(** X8.  In every store this core can produce, the five flags of a stored
    User are all false or all true: the manager writes no partly privileged
    User.  So for a stored User each permission check answers what
    [is_superuser] (or [is_active]) holds. *)
Theorem stored_flags_all_or_none `{Framework} (st : Store) (k : nat) (r : User.t) :
  reachable st → users st !! k = Some r →
  flags_uniform r ∧
  (∀ perms obj, User.has_perms r perms obj = User.is_superuser r) ∧
  (∀ app_label, User.has_module_perms r app_label = User.is_active r).
Proof.
  intros Hreach Hk.
  destruct (reachable_made_by_manager st Hreach k r Hk) as [Hmade _].
  destruct Hmade as [(fn & ln & un & em & pw & j & now & ->)
                    |(base & now2 & (fn & ln & un & em & pw & j & now & ->) & ->)];
    repeat split.
Qed.

Lemma stored_flags_all_or_none_witness :
  flags_uniform alice ∧
  (∀ perms obj, User.has_perms alice perms obj = User.is_superuser alice) ∧
  (∀ app_label, User.has_module_perms alice app_label = User.is_active alice).
Proof.
  apply (stored_flags_all_or_none (H := Ascii_env.framework) sample_store 0 alice
           sample_store_reachable).
  vm_compute. reflexivity.
Defined.

(** X9.  In every store this core can produce, the credential column of a
    stored User holds an output of the hasher, and its four timestamps are
    set; the key stored in the row is the key the row sits under. *)
Theorem stored_credential_is_hashed `{Framework} (st : Store) (k : nat) (r : User.t) :
  reachable st → users st !! k = Some r →
  (∃ raw : option string, User.password r = make_password raw) ∧
  User.pk r = Some k ∧
  is_Some (User.date_joined r) ∧ is_Some (User.last_login r) ∧
  is_Some (User.modified_date r) ∧ is_Some (User.created_date r).
Proof.
  intros Hreach Hk.
  destruct (reachable_made_by_manager st Hreach k r Hk) as [Hmade Hpk].
  split; [|split; [exact Hpk|]].
  - destruct Hmade as [(fn & ln & un & em & pw & j & now & ->)
                      |(base & now2 & (fn & ln & un & em & pw & j & now & ->) & ->)];
      exists pw; reflexivity.
  - destruct Hmade as [(fn & ln & un & em & pw & j & now & ->)
                      |(base & now2 & (fn & ln & un & em & pw & j & now & ->) & ->)];
      cbn; eauto.
Qed.

Lemma stored_credential_is_hashed_witness :
  (∃ raw : option string, User.password root = make_password raw) ∧
  User.pk root = Some 1 ∧
  is_Some (User.date_joined root) ∧ is_Some (User.last_login root) ∧
  is_Some (User.modified_date root) ∧ is_Some (User.created_date root).
Proof.
  apply (stored_credential_is_hashed (H := Ascii_env.framework) store_with_root 1 root).
  - change store_with_root with
      (exec (H := Ascii_env.framework)
         (Create_superuser "Root" "Admin" (Some "root") (Some "Root@Example.COM")
            (Some "pw") 10 20) sample_store).
    apply reachable_exec, sample_store_reachable.
  - vm_compute. reflexivity.
Defined.

(** ** The ASCII normalisation routine is idempotent *)

Module Ascii_env_facts.
Import Ascii_env.

Lemma str_app_String c (x y : string) : String c x ++ y = String c (x ++ y).
Proof. reflexivity. Qed.

Lemma str_app_nil_l (y : string) : "" ++ y = y.
Proof. reflexivity. Qed.

Lemma str_app_assoc (x y z : string) : (x ++ y) ++ z = x ++ (y ++ z).
Proof.
  induction x as [|c x IH]; [reflexivity|].
  rewrite !str_app_String, IH. reflexivity.
Qed.

Lemma str_app_nil_r (x : string) : x ++ "" = x.
Proof.
  induction x as [|c x IH]; [reflexivity|].
  rewrite str_app_String, IH. reflexivity.
Qed.

Lemma rev_app_acc (s acc : string) : String.rev_app s acc = String.rev s ++ acc.
Proof.
  unfold String.rev. revert acc. induction s as [|c s IH]; intros acc; simpl.
  - reflexivity.
  - rewrite (IH (String c acc)), (IH (String c "")), str_app_assoc. reflexivity.
Qed.

Lemma rev_String c s : String.rev (String c s) = String.rev s ++ String c "".
Proof. unfold String.rev at 1. simpl. apply rev_app_acc. Qed.

Lemma rev_app_distr (x y : string) : String.rev (x ++ y) = String.rev y ++ String.rev x.
Proof.
  induction x as [|c x IH].
  - rewrite str_app_nil_l. symmetry. apply str_app_nil_r.
  - rewrite str_app_String, !rev_String, IH, str_app_assoc. reflexivity.
Qed.

Lemma rev_involutive (s : string) : String.rev (String.rev s) = s.
Proof.
  induction s as [|c s IH]; [reflexivity|].
  rewrite rev_String, rev_app_distr, IH. reflexivity.
Qed.

(** No leading white space. *)
Definition hd_ok (s : string) : Prop :=
  match s with
  | String c _ => is_space c = false
  | EmptyString => True
  end.

Lemma lstrip_hd_ok s : hd_ok (lstrip s).
Proof.
  induction s as [|c s IH]; simpl; [exact I|].
  destruct (is_space c) eqn:Hc; [exact IH|exact Hc].
Qed.

Lemma lstrip_id s : hd_ok s → lstrip s = s.
Proof. destruct s as [|c s]; simpl; [reflexivity|]. intros ->. reflexivity. Qed.

Lemma lstrip_suffix s : ∃ sp, s = sp ++ lstrip s.
Proof.
  induction s as [|c s [sp IH]]; [exists ""; reflexivity|]. simpl.
  destruct (is_space c).
  - exists (String c sp). rewrite str_app_String, <- IH. reflexivity.
  - exists "". reflexivity.
Qed.

Lemma hd_ok_app_l u v : hd_ok (u ++ v) → hd_ok u.
Proof. destruct u as [|c u]; [intros _; exact I|]. rewrite str_app_String. exact id. Qed.

Lemma strip_hd_ok x : hd_ok (strip x) ∧ hd_ok (String.rev (strip x)).
Proof.
  unfold strip. rewrite rev_involutive. split; [|apply lstrip_hd_ok].
  destruct (lstrip_suffix (String.rev (lstrip x))) as [sp Hsp].
  apply (f_equal String.rev) in Hsp. rewrite rev_involutive, rev_app_distr in Hsp.
  apply (hd_ok_app_l _ (String.rev sp)). rewrite <- Hsp. apply lstrip_hd_ok.
Qed.

Lemma strip_id s : hd_ok s → hd_ok (String.rev s) → strip s = s.
Proof.
  intros H1 H2. unfold strip. rewrite (lstrip_id s H1), (lstrip_id _ H2).
  apply rev_involutive.
Qed.

Lemma rsplit_at_Some s n d :
  rsplit_at s = Some (n, d) → s = n ++ "@" ++ d ∧ rsplit_at d = None.
Proof.
  revert n d. induction s as [|c s IH]; intros n d; simpl; [discriminate|].
  destruct (rsplit_at s) as [[n' d']|] eqn:Hs.
  - intros [= <- <-]. destruct (IH n' d' eq_refl) as [-> Hd]. split; [reflexivity|exact Hd].
  - destruct (Ascii.eqb c "@") eqn:Hc; [|discriminate].
    intros [= <- <-]. apply Ascii.eqb_eq in Hc as ->. split; [reflexivity|exact Hs].
Qed.

Lemma lower_char_at c : Ascii.eqb (lower_char c) "@" = Ascii.eqb c "@".
Proof. destruct c as [[] [] [] [] [] [] [] []]; reflexivity. Qed.

Lemma lower_char_space c : is_space (lower_char c) = is_space c.
Proof. destruct c as [[] [] [] [] [] [] [] []]; reflexivity. Qed.

Lemma lower_char_idem c : lower_char (lower_char c) = lower_char c.
Proof. destruct c as [[] [] [] [] [] [] [] []]; reflexivity. Qed.

Lemma lower_idem s : lower (lower s) = lower s.
Proof. induction s as [|c s IH]; simpl; [reflexivity|]. rewrite lower_char_idem, IH. reflexivity. Qed.

Lemma lower_app x y : lower (x ++ y) = lower x ++ lower y.
Proof.
  induction x as [|c x IH]; [reflexivity|].
  rewrite str_app_String. simpl. rewrite IH. reflexivity.
Qed.

Lemma lower_rev s : lower (String.rev s) = String.rev (lower s).
Proof.
  induction s as [|c s IH]; [reflexivity|].
  simpl. rewrite !rev_String, lower_app, IH. reflexivity.
Qed.

Lemma hd_ok_lower s : hd_ok s → hd_ok (lower s).
Proof. destruct s as [|c s]; simpl; [exact id|]. rewrite lower_char_space. exact id. Qed.

Lemma rsplit_at_lower_None d : rsplit_at d = None → rsplit_at (lower d) = None.
Proof.
  induction d as [|c d IH]; simpl; [reflexivity|].
  destruct (rsplit_at d) as [[n' d']|]; [discriminate|].
  rewrite (IH eq_refl), lower_char_at. destruct (Ascii.eqb c "@"); [discriminate|reflexivity].
Qed.

Lemma rsplit_at_app n d :
  rsplit_at d = None → rsplit_at (n ++ "@" ++ d) = Some (n, d).
Proof.
  intros Hd. induction n as [|c n IH].
  - rewrite str_app_nil_l. change ("@" ++ d) with (String "@" d). simpl. rewrite Hd. reflexivity.
  - rewrite str_app_String. simpl. rewrite IH. reflexivity.
Qed.

Lemma rev_around_at n x :
  String.rev (n ++ "@" ++ x) = (String.rev x ++ "@") ++ String.rev n.
Proof.
  change ("@" ++ x) with (String "@" x). rewrite rev_app_distr, rev_String. reflexivity.
Qed.

Lemma normalize_idempotent e : normalize (Some (normalize e)) = normalize e.
Proof.
  unfold normalize at 2 3.
  destruct (rsplit_at (strip (default "" e))) as [[n d]|] eqn:Hs.
  - destruct (rsplit_at_Some _ _ _ Hs) as [Heq Hd].
    destruct (strip_hd_ok (default "" e)) as [H1 H2]. rewrite Heq in H1, H2.
    assert (Hstrip : strip (n ++ "@" ++ lower d) = n ++ "@" ++ lower d).
    { apply strip_id.
      - destruct n as [|c n]; [reflexivity|exact H1].
      - rewrite rev_around_at in H2 |- *. rewrite <- lower_rev.
        destruct (String.rev d) as [|c r]; [exact H2|].
        change (is_space (lower_char c) = false). rewrite lower_char_space. exact H2. }
    unfold normalize. simpl. rewrite Hstrip.
    rewrite (rsplit_at_app n (lower d) (rsplit_at_lower_None d Hd)), lower_idem.
    reflexivity.
  - unfold normalize. simpl. rewrite Hs. reflexivity.
Qed.

End Ascii_env_facts.

Lemma ascii_normalize_idempotent : normalizer_idempotent (H := Ascii_env.framework).
Proof. intros e. apply Ascii_env_facts.normalize_idempotent. Qed.

(** ** The email [create_superuser] hands on *)

(** [create_user] looks at its email argument through its truthiness and
    its normalized form only. *)
Lemma create_user_email_ext `{Framework} fn ln un em em' pw now st :
  truthy em = truthy em' → normalize_email em = normalize_email em' →
  UserManager.create_user fn ln un em pw now st =
  UserManager.create_user fn ln un em' pw now st.
Proof.
  intros Ht Hn. unfold UserManager.create_user. rewrite Ht, Hn. reflexivity.
Qed.

(** X10.  [create_superuser] normalizes the email before it calls
    [create_user], which normalizes it again.  When the normalisation routine
    is idempotent and keeps empty addresses empty and non-empty ones
    non-empty, the second pass changes nothing: the inner call behaves as
    [create_user] on the email as given, and [create_superuser] is
    [create_user] on its own arguments followed by the elevation and the
    re-save. *)
Theorem create_superuser_normalizes_once `{Framework}
    (first_name last_name : string) (username email password : option string)
    (now1 now2 : Z) (st : Store) :
  normalizer_idempotent → normalizer_keeps_empty → normalizer_keeps_nonempty →
  UserManager.create_user first_name last_name username
    (Some (normalize_email email)) password now1 st =
  UserManager.create_user first_name last_name username email password now1 st ∧
  UserManager.create_superuser first_name last_name username email password
    now1 now2 st =
  bind (UserManager.create_user first_name last_name username email password now1)
       (λ user, User_save now2 (elevate user)) st.
Proof.
  intros Hidem [HnNone HnEmpty] Hnz.
  assert (Hsame :
    UserManager.create_user first_name last_name username
      (Some (normalize_email email)) password now1 st =
    UserManager.create_user first_name last_name username email password now1 st).
  { apply create_user_email_ext; [|apply Hidem].
    destruct (truthy email) eqn:Hem.
    - apply truthy_Some. apply truthy_normalized; assumption.
    - apply truthy_false in Hem as [->| ->];
        [rewrite HnNone|rewrite HnEmpty]; reflexivity. }
  split; [exact Hsame|].
  rewrite create_superuser_unfold. unfold bind. rewrite Hsame. reflexivity.
Qed.

Lemma create_superuser_normalizes_once_witness :
  UserManager.create_user (H := Ascii_env.framework) "Root" "Admin" (Some "root")
    (Some (normalize_email (Some " Root@Example.COM "))) (Some "pw") 10 sample_store =
  UserManager.create_user "Root" "Admin" (Some "root") (Some " Root@Example.COM ")
    (Some "pw") 10 sample_store ∧
  UserManager.create_superuser "Root" "Admin" (Some "root")
    (Some " Root@Example.COM ") (Some "pw") 10 20 sample_store =
  bind (UserManager.create_user "Root" "Admin" (Some "root")
          (Some " Root@Example.COM ") (Some "pw") 10)
       (λ user, User_save 20 (elevate user)) sample_store.
Proof.
  exact (create_superuser_normalizes_once (H := Ascii_env.framework)
           "Root" "Admin" (Some "root") (Some " Root@Example.COM ") (Some "pw")
           10%Z 20%Z sample_store
           ascii_normalize_idempotent ascii_normalize_keeps_empty
           ascii_normalize_keeps_nonempty).
Defined.

(** ** Two creations in a row *)

(** X11.  After a successful [create_user], a further [create_user] call
    succeeds exactly when it would have succeeded before and its username
    and normalized email differ from those of the first call: the only
    names a creation takes are its own. *)
Theorem create_user_after_create_user `{Framework}
    (fn ln : string) (un em pw : option string) (now : Z)
    (fn' ln' : string) (un' em' pw' : option string) (now' : Z)
    (st st1 : Store) (u : User.t) :
  UserManager.create_user fn ln un em pw now st = (inr u, st1) →
  succeeded (UserManager.create_user fn' ln' un' em' pw' now' st1) = true ↔
  succeeded (UserManager.create_user fn' ln' un' em' pw' now' st) = true ∧
  str_of un' ≠ str_of un ∧ normalize_email em' ≠ normalize_email em.
Proof.
  intros Hrun.
  destruct (create_user_inr _ _ _ _ _ _ _ _ _ Hrun)
    as (_ & _ & k & Hk & Hu & _ & Hst1).
  rewrite !create_user_succeeded_iff, Hst1. cbn [users].
  unfold available. rewrite (map_Forall_insert _ _ _ _ Hk).
  rewrite Hu. cbn [User.username User.email User.set_pk User_pre_save
    User.set_timestamps fresh_user User.set_password User.set_password_column
    User.init].
  split.
  - intros (Hem & Hun & (Hu1 & Hu2) & Hall).
    split; [split; [exact Hem|split; [exact Hun|exact Hall]]|].
    split; congruence.
  - intros ((Hem & Hun & Hall) & Hu1 & Hu2).
    split; [exact Hem|]. split; [exact Hun|]. split; [|exact Hall].
    split; congruence.
Qed.

Lemma create_user_after_create_user_witness :
  succeeded (UserManager.create_user (H := Ascii_env.framework) "Bob" "Builder"
               (Some "bob") (Some "bob@example.com") None 30 store_with_root_base)
    = true ↔
  succeeded (UserManager.create_user (H := Ascii_env.framework) "Bob" "Builder"
               (Some "bob") (Some "bob@example.com") None 30 sample_store) = true ∧
  str_of (Some "bob") ≠ str_of (Some "root") ∧
  normalize_email (Some "bob@example.com")
    ≠ normalize_email (Some (normalize_email (Some "Root@Example.COM"))).
Proof.
  apply (create_user_after_create_user (H := Ascii_env.framework)
           "Root" "Admin" (Some "root")
           (Some (normalize_email (Some "Root@Example.COM"))) (Some "pw") 10%Z
           "Bob" "Builder" (Some "bob") (Some "bob@example.com") None 30%Z
           sample_store store_with_root_base root_base).
  vm_compute. reflexivity.
Defined.

(** X12.  In every store this core can produce, the email of a stored User
    is an output of the normalisation routine; when the routine is
    idempotent, normalizing a stored email gives it back. *)
Theorem stored_email_is_normalized `{Framework} (st : Store) (k : nat) (r : User.t) :
  reachable st → users st !! k = Some r →
  (∃ e : option string, User.email r = normalize_email e) ∧
  (normalizer_idempotent → normalize_email (Some (User.email r)) = User.email r).
Proof.
  intros Hreach Hk.
  destruct (reachable_made_by_manager st Hreach k r Hk) as [Hmade _].
  assert (Hex : ∃ e : option string, User.email r = normalize_email e).
  { destruct Hmade as [(fn & ln & un & em & pw & j & now & ->)
                      |(base & now2 & (fn & ln & un & em & pw & j & now & ->) & ->)];
      exists em; reflexivity. }
  split; [exact Hex|].
  intros Hidem. destruct Hex as [e ->]. apply Hidem.
Qed.

Lemma stored_email_is_normalized_witness :
  (∃ e : option string, User.email alice = normalize_email e) ∧
  normalize_email (Some (User.email alice)) = User.email alice.
Proof.
  destruct (stored_email_is_normalized (H := Ascii_env.framework) sample_store 0 alice
              sample_store_reachable eq_refl) as [Hex Hfix].
  split; [exact Hex|]. apply Hfix. exact ascii_normalize_idempotent.
Defined.
